(** * Verification of [src/helpers/33Together.js]

    A shallow embedding of the PoolTogether ("33 Together") helper module of
    the Olympus front-end, and the properties of its functions.

    JavaScript numbers are IEEE-754 binary64 values.  They are embedded as
    Rocq's primitive [float]s, whose operations are specified by the
    Standard Library against [SpecFloat] (module [FloatAxioms]).  The
    arithmetic operators of the source therefore round exactly as the
    source does.  [Math.pow] is the one operation whose result the language
    does not fix in every case: the development is parametric in what the
    engine returns there. *)

From Stdlib Require Import ZArith Bool List String Ascii Lia.
From Stdlib Require Import DecimalString DecimalPos DecimalZ Floats.
From Stdlib Require Import Reals Lra.
Import ListNotations.

Local Open Scope Z_scope.

(* Decimal literals denote the nearest binary64 value, as in the source. *)
Set Warnings "-inexact-float".

(* ================================================================== *)
(** * JavaScript numbers *)
(* ================================================================== *)

Module JS.

(** The Number nearest to an integer (round to nearest, ties to even). *)
Definition Z2f (z : Z) : float :=
  SF2Prim (binary_normalize prec emax z 0 false).

(** The Number nearest to [mant * 10 ^ exp10], with the sign [neg]; the
    mathematical value of a decimal literal, rounded once. *)
Definition decimal_to_float (neg : bool) (mant : Z) (exp10 : Z) : float :=
  if mant =? 0 then (if neg then neg_zero else zero)
  else if 0 <=? exp10 then
    SF2Prim (binary_normalize prec emax
               (cond_Zopp neg (mant * 10 ^ exp10)) 0 false)
  else
    let '(q, e, l) :=
      SFdiv_core_binary prec emax mant 0 (10 ^ (- exp10)) 0 in
    SF2Prim (binary_round_aux prec emax neg q e l).

(** [Math.round]: the integral Number closest to [x], ties towards
    [+Infinity]; a result of magnitude below one half keeps the sign of
    [x]. *)
Definition Math_round (x : float) : float :=
  match Prim2SF x with
  | S754_finite s m e =>
      if 0 <=? e then x
      else
        let n := (2 * cond_Zopp s (Zpos m) + 2 ^ (- e)) / 2 ^ (1 - e) in
        if n =? 0 then (if s then neg_zero else zero) else Z2f n
  | _ => x
  end.

(** The power an engine computes for a finite base that is not zero and an
    integral exponent that is not zero. *)
Definition pow_engine : Type := float -> Z -> float.

(** The correctly rounded power: the Number nearest to the exact power of a
    finite base.  An engine of full accuracy returns it; it serves as the
    sample engine. *)
Definition correctly_rounded_pow : pow_engine := fun base n =>
  match Prim2SF base with
  | S754_finite s m e =>
      let sz := s && Z.odd n in
      if 0 <? n then
        SF2Prim (binary_round prec emax sz
                   (Pos.pow m (Z.to_pos n)) (e * n))
      else
        let '(q, e', l) :=
          SFdiv_core_binary prec emax 1 (- (e * (- n)))
            (Zpos (Pos.pow m (Z.to_pos (- n)))) 0 in
        SF2Prim (binary_round_aux prec emax sz q e' l)
  | _ => nan
  end.

Section Engine.

(** ECMAScript leaves [Math.pow] implementation-approximated wherever it
    does not fix the result, and the engines do not all return the same
    Number there.  That part of the function is the engine's own. *)
Variable engine : pow_engine.

(** [Math.pow] with an integral exponent, by the cases of
    [Number::exponentiate]: an exponent of zero, then a base that is [NaN],
    an infinity or a zero are fixed by the language; the power of any other
    base is the engine's. *)
Definition Math_pow (base : float) (n : Z) : float :=
  if n =? 0 then one
  else
    match Prim2SF base with
    | S754_nan => nan
    | S754_infinity s =>
        if 0 <? n then (if s && Z.odd n then neg_infinity else infinity)
        else (if s && Z.odd n then neg_zero else zero)
    | S754_zero s =>
        if 0 <? n then (if s && Z.odd n then neg_zero else zero)
        else (if s && Z.odd n then neg_infinity else infinity)
    | S754_finite _ _ _ => engine base n
    end.

End Engine.

(** ** Strings to numbers

    Strings are sequences of one-byte code units.  The two conversions of
    the language, [StringToNumber] (the whole string must be a numeric
    literal) and [parseFloat] (the longest prefix that is a decimal literal),
    share the scanner below. *)

Definition is_digit (c : ascii) : bool :=
  let n := Z.of_nat (nat_of_ascii c) in (48 <=? n) && (n <=? 57).

Definition digit_val (c : ascii) : Z := Z.of_nat (nat_of_ascii c) - 48.

(** [StrWhiteSpaceChar], within one byte: TAB, LF, VT, FF, CR, SP, NBSP. *)
Definition is_white (c : ascii) : bool :=
  let n := Z.of_nat (nat_of_ascii c) in
  ((9 <=? n) && (n <=? 13)) || (n =? 32) || (n =? 160).

Fixpoint skip_white (s : string) : string :=
  match s with
  | String c s' => if is_white c then skip_white s' else s
  | EmptyString => s
  end.

Fixpoint all_white (s : string) : bool :=
  match s with
  | String c s' => is_white c && all_white s'
  | EmptyString => true
  end.

(** Reads a run of decimal digits: the value accumulated on [acc], the
    number of digits read, and the rest of the string. *)
Fixpoint scan_digits (s : string) (acc : Z) (n : Z) : Z * Z * string :=
  match s with
  | String c s' =>
      if is_digit c then scan_digits s' (10 * acc + digit_val c) (n + 1)
      else (acc, n, s)
  | EmptyString => (acc, n, s)
  end.

(** The optional [ExponentPart]: [e] or [E], an optional sign and at least
    one digit.  Without one the exponent is [0] and nothing is consumed. *)
Definition scan_exponent (s : string) : Z * string :=
  match s with
  | String c s1 =>
      if (Ascii.eqb c "e" || Ascii.eqb c "E")%char then
        let '(neg, s2) :=
          match s1 with
          | String "-"%char r => (true, r)
          | String "+"%char r => (false, r)
          | _ => (false, s1)
          end in
        let '(v, k, rest) := scan_digits s2 0 0 in
        if 0 <? k then (cond_Zopp neg v, rest) else (0, s)
      else (0, s)
  | EmptyString => (0, s)
  end.

(** What an unsigned literal denotes. *)
Inductive literal :=
  | LitInfinity
  | LitDecimal (mant : Z) (exp10 : Z).

(** The longest prefix of [s] that is a [StrUnsignedDecimalLiteral], with
    the rest of the string; [None] when no prefix is one. *)
Definition scan_unsigned (s : string) : option (literal * string) :=
  if prefix "Infinity" s then
    Some (LitInfinity, substring 8 (length s - 8) s)
  else
    let '(ip, ni, r1) := scan_digits s 0 0 in
    match r1 with
    | String "."%char r2 =>
        let '(fp, nf, r3) := scan_digits r2 ip 0 in
        if (0 <? ni) || (0 <? nf) then
          let '(ex, r4) := scan_exponent r3 in
          Some (LitDecimal fp (ex - nf), r4)
        else None
    | _ =>
        if 0 <? ni then
          let '(ex, r4) := scan_exponent r1 in
          Some (LitDecimal ip ex, r4)
        else None
    end.

(** A [StrDecimalLiteral] prefix: an optional sign and an unsigned
    literal. *)
Definition scan_signed (s : string) : option (float * string) :=
  let '(neg, s1) :=
    match s with
    | String "-"%char r => (true, r)
    | String "+"%char r => (false, r)
    | _ => (false, s)
    end in
  match scan_unsigned s1 with
  | Some (LitInfinity, rest) =>
      Some (if neg then neg_infinity else infinity, rest)
  | Some (LitDecimal m e, rest) => Some (decimal_to_float neg m e, rest)
  | None => None
  end.

(** Digits in a radix of 2, 8 or 16, for [NonDecimalIntegerLiteral]. *)
Definition radix_digit (radix : Z) (c : ascii) : option Z :=
  let n := Z.of_nat (nat_of_ascii c) in
  let v :=
    if (48 <=? n) && (n <=? 57) then n - 48
    else if (97 <=? n) && (n <=? 102) then n - 87
    else if (65 <=? n) && (n <=? 70) then n - 55
    else radix in
  if v <? radix then Some v else None.

Fixpoint scan_radix (radix : Z) (s : string) (acc : Z) : option Z :=
  match s with
  | String c s' =>
      match radix_digit radix c with
      | Some v => scan_radix radix s' (radix * acc + v)
      | None => if all_white s then Some acc else None
      end
  | EmptyString => Some acc
  end.

Definition scan_non_decimal (s : string) : option float :=
  match s with
  | String "0"%char (String c (String d r)) =>
      let radix :=
        if (Ascii.eqb c "x" || Ascii.eqb c "X")%char then 16
        else if (Ascii.eqb c "o" || Ascii.eqb c "O")%char then 8
        else if (Ascii.eqb c "b" || Ascii.eqb c "B")%char then 2
        else 0 in
      match radix_digit radix d with
      | Some _ =>
          match scan_radix radix (String d r) 0 with
          | Some v => Some (Z2f v)
          | None => None
          end
      | None => None
      end
  | _ => None
  end.

(** [StringToNumber]: white space is trimmed at both ends; the empty string
    is [+0]; anything that is not exactly one numeric literal is [NaN]. *)
Definition StringToNumber (s : string) : float :=
  let t := skip_white s in
  if all_white t then zero
  else
    match scan_non_decimal t with
    | Some x => x
    | None =>
        match scan_signed t with
        | Some (x, rest) => if all_white rest then x else nan
        | None => nan
        end
    end.

(** [parseFloat] of a string: leading white space is skipped and the longest
    decimal-literal prefix is converted; [NaN] without one. *)
Definition parseFloat_string (s : string) : float :=
  match scan_signed (skip_white s) with
  | Some (x, _) => x
  | None => nan
  end.

(** Decimal notation of an integer: digits, after a minus sign when it is
    negative. *)
Definition decimal (z : Z) : string :=
  DecimalString.NilZero.string_of_int (Z.to_int z).

(** ** Values

    The values the helpers receive: the primitives, and [BigNumber] objects
    of the ethers library, which are arbitrary-precision integers whose
    [toString] is their decimal notation. *)
Inductive value :=
  | VUndefined
  | VNull
  | VBool (b : bool)
  | VNumber (x : float)
  | VString (s : string)
  | VBigNumber (z : Z).

(** [ToNumber].  A [BigNumber] has no [valueOf] of its own, so it is
    converted through its [toString], the decimal notation. *)
Definition ToNumber (v : value) : float :=
  match v with
  | VUndefined => nan
  | VNull => zero
  | VBool b => if b then one else zero
  | VNumber x => x
  | VString s => StringToNumber s
  | VBigNumber z => StringToNumber (decimal z)
  end.

(** [parseFloat(v)] is [parseFloat] of [ToString(v)].  For a Number,
    [ToString] produces digits that denote that very Number, and ["0"] for
    both zeros; for the other primitives it produces their names, which are
    no numeric literal. *)
Definition parseFloat (v : value) : float :=
  match v with
  | VUndefined | VNull | VBool _ => nan
  | VNumber x => if PrimFloat.eqb x zero then zero else x
  | VString s => parseFloat_string s
  | VBigNumber z => parseFloat_string (decimal z)
  end.

(** [v === x] for a Number [x]: only a Number is strictly equal to a
    Number, and then by the IEEE comparison ([NaN] equals nothing, the two
    zeros are equal). *)
Definition strict_eq_number (v : value) (x : float) : bool :=
  match v with
  | VNumber y => PrimFloat.eqb y x
  | _ => false
  end.

Definition is_undefined (v : value) : bool :=
  match v with
  | VUndefined => true
  | _ => false
  end.

End JS.

(* ================================================================== *)
(** * The ethers library: [BigNumber] and [formatEther] *)
(* ================================================================== *)

Module Ethers.

(** [BigNumber.toString]: decimal notation. *)
Definition toString (z : Z) : string := JS.decimal z.

(** [a.gt(b)] and [a.div(b)]; the division truncates towards zero, and is
    only reached with a non-zero divisor. *)
Definition gt (a b : Z) : bool := b <? a.
Definition div (a b : Z) : Z := Z.quot a b.

Fixpoint zeros (n : nat) : string :=
  match n with
  | O => EmptyString
  | S n' => String "0" (zeros n')
  end.

(** A digit string padded with zeros on the left up to [n] characters. *)
Definition pad_zeros (n : nat) (s : string) : string :=
  (zeros (n - length s) ++ s)%string.

(** Drops the zeros that end a digit string; [fraction_digits] is what
    remains, or ["0"] when all of it was zeros. *)
Fixpoint strip_zeros (s : string) : string :=
  match s with
  | EmptyString => EmptyString
  | String c s' =>
      match strip_zeros s' with
      | EmptyString => if Ascii.eqb c "0" then EmptyString else String c EmptyString
      | t => String c t
      end
  end.

Definition fraction_digits (s : string) : string :=
  match strip_zeros s with
  | EmptyString => "0"%string
  | t => t
  end.

(** [formatFixed(value, decimals)] for [decimals > 0]. *)
Definition formatFixed (value : Z) (decimals : nat) : string :=
  let multiplier := 10 ^ Z.of_nat decimals in
  let negative := value <? 0 in
  let v := if negative then value * -1 else value in
  let fraction :=
    fraction_digits (pad_zeros decimals (toString (v mod multiplier))) in
  let whole := toString (v / multiplier) in
  let s := (whole ++ "." ++ fraction)%string in
  if negative then String "-" s else s.

Definition formatEther (wei : Z) : string := formatFixed wei 18.

End Ethers.

(* ================================================================== *)
(** * The pure helpers of [33Together.js] *)
(* ================================================================== *)

Import JS.

Local Open Scope float_scope.

Section Odds.

(** The engine's power, on which [Math.pow] rests. *)
Variable engine : pow_engine.

(** [calculateOdds]: the user's odds of winning, ["ngmi"] without a
    balance.  [winners] is the pool's number of winners, an integral
    Number. *)
Definition calculateOdds (usersPoolBalance : value)
    (totalPoolDeposits : float) (winners : Z) : value :=
  if is_undefined usersPoolBalance
     || strict_eq_number usersPoolBalance 0
     || (parseFloat usersPoolBalance =? 0)
  then VString "ngmi"
  else
    VNumber
      (1 / (1 - Math_pow engine
                  ((totalPoolDeposits - ToNumber usersPoolBalance)
                   / totalPoolDeposits)
                  winners)).

End Odds.

(** [fractionToPercentage]. *)
Definition fractionToPercentage (fraction : value) : float :=
  Math_round (ToNumber fraction * 100).

(** [secondsToDaysForInput]. *)
Definition secondsToDaysForInput (seconds : value) : float :=
  Math_round ((ToNumber seconds / 60 / 60 / 24) * 10000) / 10000.

(** [getCreditMaturationDaysAndLimitPercentage]; both arguments are
    [BigNumber]s, the result is the two-element array. *)
Definition getCreditMaturationDaysAndLimitPercentage
    (ticketCreditRateMantissa ticketCreditLimitMantissa : Z)
    : float * float :=
  let creditLimitMantissa := Ethers.formatEther ticketCreditLimitMantissa in
  let creditLimitPercentage :=
    fractionToPercentage (VString creditLimitMantissa) in
  let creditMaturationInSeconds :=
    if Ethers.gt ticketCreditRateMantissa 0
    then VBigNumber (Ethers.div ticketCreditLimitMantissa
                                ticketCreditRateMantissa)
    else VNumber 0 in
  let creditMaturationInDays :=
    secondsToDaysForInput creditMaturationInSeconds in
  (creditMaturationInDays, creditLimitPercentage).

(** [poolTogetherUILinks]: both branches of the source are kept. *)
Definition poolTogetherUILinks (chainID : value) : string * string :=
  if strict_eq_number chainID 4 then
    ("https://community.pooltogether.com/pools/rinkeby/0x60bc094cb0c966e60ed3be0549e92f3bc572e9f8/home"%string,
     "https://community.pooltogether.com/pools/rinkeby/0x60bc094cb0c966e60ed3be0549e92f3bc572e9f8/manage#stats"%string)
  else
    ("https://community.pooltogether.com/pools/rinkeby/0x60bc094cb0c966e60ed3be0549e92f3bc572e9f8/home"%string,
     "https://community.pooltogether.com/pools/rinkeby/0x60bc094cb0c966e60ed3be0549e92f3bc572e9f8/manage#stats"%string).

(* ================================================================== *)
(** * Effects: listeners, callbacks, timers and exceptions *)
(* ================================================================== *)

Local Close Scope float_scope.

(** A provider object, by identity. *)
Definition provider := nat.

Definition address := string.

Bind Scope string_scope with address.

Inductive js_error :=
  | TypeError (msg : string)
  | Thrown (msg : string).

(** The caller-supplied [eventHandler].  It is the caller's code and opaque
    to the helpers: of what it does, only whether it returns or throws
    bears on their own steps.  Whatever else it does, to the listeners as
    well, is not a step of a helper and not part of a helper's trace. *)
Record callback := {
  cb_name : string;
  cb_throws : option js_error
}.

(** The function handed to [setTimeout]: the helpers only ever schedule
    [() => window.location.reload()]. *)
Inductive timer_task := ReloadPage.

(** The closure [handlerFunc] with the variables it captures. *)
Record closure := {
  h_provider : provider;
  h_topicString : string;
  h_contractAddress : address;
  h_eventHandler : callback
}.

(** What a helper does to the world outside it, in the order it does it. *)
Inductive effect :=
  | ConsoleLog (msg : string)
  | AddEthersEventListener (p : provider) (topic : string) (a : address)
      (h : closure)
  | RemoveEthersEventListener (p : provider) (topic : string) (a : address)
  | CallEventHandler (cb : callback)
  | SetTimeout (task : timer_task) (ms : Z).

Inductive completion (A : Type) :=
  | Normal (a : A)
  | Throw (e : js_error).

Arguments Normal {A} a.
Arguments Throw {A} e.

(** A computation: the effects performed, and how it completed.  After a
    throw nothing more is performed. *)
Definition M (A : Type) : Type := list effect * completion A.

Definition ret {A} (a : A) : M A := ([], Normal a).

Definition bind {A B} (m : M A) (k : A -> M B) : M B :=
  match m with
  | (t, Normal a) => let '(t', r) := k a in (t ++ t', r)
  | (t, Throw e) => (t, Throw e)
  end.

Definition emit (e : effect) : M unit := ([e], Normal tt).

Definition throw {A} (e : js_error) : M A := ([], Throw e).

Notation "x <- c1 ;; c2" := (bind c1 (fun x => c2))
  (at level 61, c1 at next level, right associativity).
Notation "c1 ;; c2" := (bind c1 (fun _ => c2))
  (at level 61, right associativity).

(** Calling the callback: the call is one entry of the trace, then it
    returns or throws. *)
Definition call (cb : callback) : M unit :=
  emit (CallEventHandler cb) ;;
  match cb_throws cb with
  | Some e => throw e
  | None => ret tt
  end.

(** ** The address table of [../constants]

    Modelled from the spec: the table is not part of the sources.  It is
    indexed by the network id, and an entry exposes at least
    [POOL_TOGETHER.PRIZE_STRATEGY_ADDRESS] and
    [POOL_TOGETHER.PRIZE_POOL_ADDRESS]. *)

Record pool_together_addresses := {
  PRIZE_STRATEGY_ADDRESS : address;
  PRIZE_POOL_ADDRESS : address
}.

Record network_addresses := {
  POOL_TOGETHER : pool_together_addresses
}.

Section Listeners.

(** The table is imported by the module; a network id without an entry
    reads as [undefined]. *)
Variable addresses : Z -> option network_addresses.

(** [addresses[networkID].POOL_TOGETHER]: reading a property of
    [undefined] throws a [TypeError]. *)
Definition pool_together_of (networkID : Z) : M pool_together_addresses :=
  match addresses networkID with
  | Some n => ret (POOL_TOGETHER n)
  | None =>
      throw (TypeError
        "Cannot read properties of undefined (reading 'POOL_TOGETHER')")
  end.

(** The body of [handlerFunc], the same in the three helpers. *)
Definition handlerFunc (h : closure) : M unit :=
  emit (RemoveEthersEventListener (h_provider h) (h_topicString h)
          (h_contractAddress h)) ;;
  call (h_eventHandler h) ;;
  emit (SetTimeout ReloadPage 15000).

Definition listenAndHandleRNGCompleteEvent (p : provider) (networkID : Z)
    (eventHandler : callback) : M unit :=
  pt <- pool_together_of networkID ;;
  let contractAddress := PRIZE_STRATEGY_ADDRESS pt in
  let topicString := "RandomNumberCompleted(uint32,uint256)"%string in
  let handler :=
    {| h_provider := p; h_topicString := topicString;
       h_contractAddress := contractAddress;
       h_eventHandler := eventHandler |} in
  emit (AddEthersEventListener p topicString contractAddress handler).

Definition listenAndHandleDepositEvent (p : provider) (networkID : Z)
    (eventHandler : callback) : M unit :=
  pt <- pool_together_of networkID ;;
  let contractAddress := PRIZE_POOL_ADDRESS pt in
  let topicString :=
    "Deposited(address,address,address,uint256,address)"%string in
  let handler :=
    {| h_provider := p; h_topicString := topicString;
       h_contractAddress := contractAddress;
       h_eventHandler := eventHandler |} in
  emit (AddEthersEventListener p topicString contractAddress handler).

Definition listenAndHandleRNGStartEvent (p : provider) (networkID : Z)
    (secondsLeft : float) (eventHandler : callback) : M unit :=
  pt <- pool_together_of networkID ;;
  let contractAddress := PRIZE_STRATEGY_ADDRESS pt in
  let topicString := "RandomNumberRequested(uint32,address)"%string in
  if PrimFloat.leb secondsLeft 0 then
    emit (ConsoleLog "start listener") ;;
    let handler :=
      {| h_provider := p; h_topicString := topicString;
         h_contractAddress := contractAddress;
         h_eventHandler := eventHandler |} in
    emit (AddEthersEventListener p topicString contractAddress handler)
  else
    emit (ConsoleLog "end listener") ;;
    emit (RemoveEthersEventListener p topicString contractAddress).

End Listeners.

(** ** Reading a trace *)

Definition is_add (e : effect) : bool :=
  match e with
  | AddEthersEventListener _ _ _ _ => true
  | _ => false
  end.

Definition is_remove (e : effect) : bool :=
  match e with
  | RemoveEthersEventListener _ _ _ => true
  | _ => false
  end.

Definition is_call (e : effect) : bool :=
  match e with
  | CallEventHandler _ => true
  | _ => false
  end.

Definition is_timeout (e : effect) : bool :=
  match e with
  | SetTimeout _ _ => true
  | _ => false
  end.

Definition count (f : effect -> bool) (t : list effect) : nat :=
  List.length (List.filter f t).

(** A registration: the arguments of one [addEthersEventListener] call. *)
Definition registration : Type := provider * string * address * closure.

(** The registrations a computation made. *)
Fixpoint installed (t : list effect) : list registration :=
  match t with
  | [] => []
  | AddEthersEventListener p topic a h :: t' =>
      (p, topic, a, h) :: installed t'
  | _ :: t' => installed t'
  end.

(** ** The listener facility

    Modelled from the spec: the module [./ethersEventListener] is not part of
    the sources.  It keeps the handlers registered for a provider, topic and
    address; adding registers one more, removing drops every handler of that
    triple and does nothing when there is none.

    [registry_after t r] is what the calls to the facility listed in the
    trace [t] make of the registry [r].  A [CallEventHandler] entry is no
    call to the facility: it leaves the registry as it is, and the calls a
    callback makes to the facility on its own account are not in the trace
    of a helper. *)
Definition registry := list registration.

Definition same_listener (p : provider) (topic : string) (a : address)
    (r : registration) : bool :=
  let '(p', topic', a', _) := r in
  Nat.eqb p' p && String.eqb topic' topic && String.eqb a' a.

Definition registry_step (r : registry) (e : effect) : registry :=
  match e with
  | AddEthersEventListener p topic a h => r ++ [(p, topic, a, h)]
  | RemoveEthersEventListener p topic a =>
      List.filter (fun x => negb (same_listener p topic a x)) r
  | _ => r
  end.

Definition registry_after (t : list effect) (r : registry) : registry :=
  List.fold_left registry_step t r.

Definition listeners_of (p : provider) (topic : string) (a : address)
    (r : registry) : list registration :=
  List.filter (same_listener p topic a) r.

(** The three listener helpers, as the computations they are for a provider,
    a network id and a callback. *)
Inductive listener_helper (addresses : Z -> option network_addresses)
    (p : provider) (networkID : Z) (cb : callback) : M unit -> Prop :=
  | helper_rng_complete :
      listener_helper addresses p networkID cb
        (listenAndHandleRNGCompleteEvent addresses p networkID cb)
  | helper_deposit :
      listener_helper addresses p networkID cb
        (listenAndHandleDepositEvent addresses p networkID cb)
  | helper_rng_start (secondsLeft : float) :
      listener_helper addresses p networkID cb
        (listenAndHandleRNGStartEvent addresses p networkID secondsLeft cb).

(** ** The claimed day conversion

    The conversion as the specification words it: the seconds divided by
    86400 at once, then rounded to four decimals. *)
Definition claimed_days (seconds : Z) : float :=
  (Math_round ((ToNumber (VBigNumber seconds) / 86400) * 10000)
   / 10000)%float.

(** The balance counts for nothing when it is [undefined], a zero, or
    something [parseFloat] reads as zero. *)
Definition no_chance (usersPoolBalance : value) : Prop :=
  usersPoolBalance = VUndefined
  \/ (exists x, usersPoolBalance = VNumber x /\ PrimFloat.eqb x 0 = true)
  \/ PrimFloat.eqb (parseFloat usersPoolBalance) 0 = true.

(* ================================================================== *)
(** * Sample inputs *)
(* ================================================================== *)

Definition sample_addresses (networkID : Z) : option network_addresses :=
  if networkID =? 4 then
    Some {| POOL_TOGETHER :=
              {| PRIZE_STRATEGY_ADDRESS :=
                   "0xeeb552c4d5e155e50ee3f7402ed379bf72e36f23";
                 PRIZE_POOL_ADDRESS :=
                   "0x60bc094cb0c966e60ed3be0549e92f3bc572e9f8" |} |}
  else None.

Definition sample_callback : callback :=
  {| cb_name := "onAward"; cb_throws := None |}.

Definition failing_callback : callback :=
  {| cb_name := "onAward"; cb_throws := Some (Thrown "dispatch failed") |}.

(* ================================================================== *)
(** * Real values of binary64 numbers

    The definitions on which the facts about rounding are stated: the real
    number a mantissa and an exponent denote, and what the shifting of
    [SpecFloat] keeps of a value. *)
(* ================================================================== *)

Definition pow2 (e : Z) : R := powerRZ 2 e.

Definition F2R (m e : Z) : R := (IZR m * pow2 e)%R.

(** No non-zero digit has been shifted out. *)
Definition rec_exact (x : shr_record) : bool := negb (shr_r x || shr_s x).

Definition loc_exact (l : location) : bool :=
  match l with
  | loc_Exact => true
  | _ => false
  end.

(** What is known of a value from above, by a representable number [f]: the
    value is truncated to [m] at the exponent [e], and [f] is at least the
    next multiple, or at least this one when the truncation is exact. *)
Definition under (f : R) (m e : Z) (exact : bool) : Prop :=
  (F2R (m + 1) e <= f)%R \/ ((F2R m e <= f)%R /\ exact = true).



(* ================================================================== *)
(** * Definitions for the further properties *)
(* ================================================================== *)

(** The integer a digit sequence denotes, read from the left onto [acc]. *)
Fixpoint uint_value (d : Decimal.uint) (acc : Z) : Z :=
  match d with
  | Decimal.Nil => acc
  | Decimal.D0 l => uint_value l (10 * acc)
  | Decimal.D1 l => uint_value l (10 * acc + 1)
  | Decimal.D2 l => uint_value l (10 * acc + 2)
  | Decimal.D3 l => uint_value l (10 * acc + 3)
  | Decimal.D4 l => uint_value l (10 * acc + 4)
  | Decimal.D5 l => uint_value l (10 * acc + 5)
  | Decimal.D6 l => uint_value l (10 * acc + 6)
  | Decimal.D7 l => uint_value l (10 * acc + 7)
  | Decimal.D8 l => uint_value l (10 * acc + 8)
  | Decimal.D9 l => uint_value l (10 * acc + 9)
  end.

(** [range_check test n s] tests the [n] integers from [s] on. *)
Fixpoint range_check (test : Z -> bool) (n : nat) (s : Z) : bool :=
  match n with
  | O => true
  | S n' => test s && range_check test n' (s + 1)
  end.

(** A Number that is neither negative nor [NaN]: [+0], a positive finite
    Number or [+Infinity]. *)
Definition SFnonneg (x : spec_float) : bool :=
  match x with
  | S754_zero false | S754_finite false _ _ | S754_infinity false => true
  | _ => false
  end.

(** The same computation [n] times in a row. *)
Fixpoint repeat_run (n : nat) (c : M unit) : M unit :=
  match n with
  | O => ret tt
  | S n' => c ;; repeat_run n' c
  end.

(* ================================================================== *)
(** * The helpers on the values the specification names *)
(* ================================================================== *)

Example fractionToPercentage_0_256 :
  fractionToPercentage (VString "0.256") = 26%float.
Proof. reflexivity. Qed.

Example secondsToDaysForInput_one_day :
  secondsToDaysForInput (VNumber 86400) = 1%float.
Proof. reflexivity. Qed.

Example secondsToDaysForInput_8 :
  secondsToDaysForInput (VNumber 8) = (1 / 10000)%float.
Proof. reflexivity. Qed.

Example calculateOdds_zero_string (engine : pow_engine) :
  calculateOdds engine (VString "0") 100 1 = VString "ngmi".
Proof. reflexivity. Qed.

Example calculateOdds_half_pool :
  calculateOdds correctly_rounded_pow (VNumber 1) 2 1 = VNumber 2.
Proof. reflexivity. Qed.

(** The odds follow the engine.  The correctly rounded [Math.pow(0.9, 4)] is
    0.6561, and an engine may return the next Number, 0.6561000000000001:
    the odds of one part in ten with four winners differ in the last place
    accordingly. *)
Example calculateOdds_follows_engine (engine : pow_engine) :
  ((10 - 1) / 10 = 0.9)%float
  /\ correctly_rounded_pow 0.9%float 4 = 0.6561%float
  /\ (engine 0.9%float 4 = 0.6561%float ->
      calculateOdds engine (VNumber 1) 10 4 = VNumber 2.907822041291073)
  /\ (engine 0.9%float 4 = 0.6561000000000001%float ->
      calculateOdds engine (VNumber 1) 10 4 = VNumber 2.907822041291074).
Proof.
  repeat split; intros H; unfold calculateOdds;
    cbn [is_undefined strict_eq_number parseFloat ToNumber orb];
    change (Math_pow engine ((10 - 1) / 10) 4) with (engine 0.9%float 4);
    rewrite H; reflexivity.
Qed.

Example formatEther_one_percent :
  Ethers.formatEther 10000000000000000 = "0.01"%string
  /\ fractionToPercentage (VString "0.01") = 1%float.
Proof. split; reflexivity. Qed.

Example parseFloat_reads_a_prefix :
  parseFloat (VString "  12.5 days") = 12.5%float
  /\ ToNumber (VString "  12.5 days") = nan
  /\ ToNumber (VString "  12.5 ") = 12.5%float
  /\ parseFloat (VString "0x10") = 0%float
  /\ ToNumber (VString "0x10") = 16%float.
Proof. repeat split. Qed.

Example bignumber_to_number :
  ToNumber (VBigNumber 86400) = 86400%float
  /\ ToNumber (VBigNumber 9007199254740993) = 9007199254740992%float.
Proof. repeat split. Qed.

(* ================================================================== *)
(** * Rounding in binary64

    [SpecFloat] rounds a value in two steps: the mantissa is shifted to the
    exponent of the format, and rounded to nearest even on what was shifted
    out.  The facts below bound the result by the numbers of the format
    around the value; they are what the properties of [calculateOdds]
    need. *)
(* ================================================================== *)

Lemma pow2_pos e : (0 < pow2 e)%R.
Proof. apply powerRZ_lt. lra. Qed.

Lemma pow2_add a b : pow2 (a + b) = (pow2 a * pow2 b)%R.
Proof. apply powerRZ_add. lra. Qed.

Lemma pow2_IZR n : 0 <= n -> pow2 n = IZR (2 ^ n).
Proof.
  intros Hn. unfold pow2.
  rewrite <- (Z2Nat.id n Hn) at 1.
  rewrite <- pow_powerRZ, pow_IZR, Z2Nat.id by exact Hn. reflexivity.
Qed.

Lemma pow2_0 : pow2 0 = 1%R.
Proof. reflexivity. Qed.

Lemma pow2_le a b : a <= b -> (pow2 a <= pow2 b)%R.
Proof.
  intros H. replace b with (a + (b - a)) by ring.
  rewrite pow2_add, (pow2_IZR (b - a)) by lia.
  assert (1 <= 2 ^ (b - a)) by (apply Z.lt_pred_le, Z.pow_pos_nonneg; lia).
  apply IZR_le in H0. pose proof (pow2_pos a). nra.
Qed.

Lemma pow2_lt a b : a < b -> (pow2 a < pow2 b)%R.
Proof.
  intros H. replace b with (a + (b - a)) by ring.
  rewrite pow2_add, (pow2_IZR (b - a)) by lia.
  assert (2 ^ 1 <= 2 ^ (b - a)) by (apply Z.pow_le_mono_r; lia).
  change (2 ^ 1) with 2 in H0.
  apply IZR_le in H0. pose proof (pow2_pos a). nra.
Qed.

Lemma pow2_lt_inv a b : (pow2 a < pow2 b)%R -> a < b.
Proof.
  intros H. destruct (Z_lt_le_dec a b) as [Hlt|Hle]; [exact Hlt|].
  apply pow2_le in Hle. lra.
Qed.

Lemma F2R_shift m e k : 0 <= k -> F2R (m * 2 ^ k) e = F2R m (e + k).
Proof.
  intros Hk. unfold F2R. rewrite mult_IZR, pow2_add, (pow2_IZR k Hk). ring.
Qed.

Lemma F2R_le_same m1 m2 e : (F2R m1 e <= F2R m2 e)%R <-> m1 <= m2.
Proof.
  unfold F2R. pose proof (pow2_pos e). split; intros H1.
  - apply le_IZR. nra.
  - apply IZR_le in H1. nra.
Qed.

Lemma F2R_lt_same m1 m2 e : (F2R m1 e < F2R m2 e)%R <-> m1 < m2.
Proof.
  unfold F2R. pose proof (pow2_pos e). split; intros H1.
  - apply lt_IZR. nra.
  - apply IZR_lt in H1. nra.
Qed.

(** ** Digits of a mantissa *)
Lemma digits2_size p : digits2_pos p = Pos.size p.
Proof. induction p; simpl; congruence. Qed.

Lemma Zdigits2_bounds m :
  0 < m -> 2 ^ (Zdigits2 m - 1) <= m < 2 ^ Zdigits2 m.
Proof.
  destruct m as [|p|p]; try lia. intros _. simpl Zdigits2.
  rewrite digits2_size.
  pose proof (Pos.size_gt p) as Hgt. pose proof (Pos.size_le p) as Hle.
  apply Pos2Z.pos_lt_pos in Hgt. apply Pos2Z.pos_le_pos in Hle.
  rewrite Pos2Z.inj_pow in Hgt, Hle.
  split; [|exact Hgt].
  replace (Z.pos (Pos.size p)) with (Z.succ (Z.pos (Pos.size p) - 1)) in Hle by lia.
  rewrite Z.pow_succ_r in Hle by lia. lia.
Qed.

Lemma Zdigits2_pos m : 0 < m -> 0 < Zdigits2 m.
Proof. destruct m; simpl; lia. Qed.

Lemma Zdigits2_unique m d :
  0 < m -> 2 ^ (d - 1) <= m < 2 ^ d -> Zdigits2 m = d.
Proof.
  intros Hm [Hlo Hhi]. pose proof (Zdigits2_bounds m Hm) as [Blo Bhi].
  pose proof (Zdigits2_pos m Hm).
  assert (0 < d).
  { destruct (Z_lt_le_dec 0 d); [lia|]. 
    assert (2 ^ d <= 2 ^ 0) by (destruct (Z.eq_dec d 0); [subst; lia| rewrite Z.pow_neg_r by lia; simpl; lia]).
    simpl in H0. lia. }
  destruct (Z.lt_trichotomy (Zdigits2 m) d) as [Hc|[Hc|Hc]]; [|exact Hc|].
  - assert (2 ^ Zdigits2 m <= 2 ^ (d - 1)) by (apply Z.pow_le_mono_r; lia). lia.
  - assert (2 ^ d <= 2 ^ (Zdigits2 m - 1)) by (apply Z.pow_le_mono_r; lia). lia.
Qed.

Lemma Zdigits2_le a b : 0 < a -> a <= b -> Zdigits2 a <= Zdigits2 b.
Proof.
  intros Ha Hab.
  pose proof (Zdigits2_bounds a Ha) as [Alo Ahi].
  pose proof (Zdigits2_bounds b ltac:(lia)) as [Blo Bhi].
  destruct (Z_lt_le_dec (Zdigits2 b) (Zdigits2 a)) as [Hc|Hc]; [|exact Hc].
  assert (2 ^ Zdigits2 b <= 2 ^ (Zdigits2 a - 1)) by (apply Z.pow_le_mono_r; lia).
  lia.
Qed.

Lemma Zdigits2_shiftl m k : 0 < m -> 0 <= k -> Zdigits2 (m * 2 ^ k) = Zdigits2 m + k.
Proof.
  intros Hm Hk. pose proof (Zdigits2_bounds m Hm) as [Blo Bhi].
  pose proof (Zdigits2_pos m Hm).
  assert (0 < 2 ^ k) by (apply Z.pow_pos_nonneg; lia).
  apply Zdigits2_unique; [nia|].
  replace (Zdigits2 m + k - 1) with ((Zdigits2 m - 1) + k) by ring.
  rewrite !Z.pow_add_r by lia. nia.
Qed.

Lemma Zdigits2_div m k :
  0 < m -> 0 <= k -> 2 ^ k <= m -> Zdigits2 (m / 2 ^ k) = Zdigits2 m - k.
Proof.
  intros Hm Hk Hkm. pose proof (Zdigits2_bounds m Hm) as [Blo Bhi].
  assert (0 < 2 ^ k) by (apply Z.pow_pos_nonneg; lia).
  assert (k < Zdigits2 m).
  { destruct (Z_lt_le_dec k (Zdigits2 m)); [lia|].
    assert (2 ^ Zdigits2 m <= 2 ^ k) by (apply Z.pow_le_mono_r; lia). lia. }
  assert (0 < m / 2 ^ k) by (apply Z.div_str_pos; lia).
  apply Zdigits2_unique; [lia|].
  split.
  - apply Z.div_le_lower_bound; [lia|].
    rewrite <- Z.pow_add_r by lia. replace (k + (Zdigits2 m - k - 1)) with (Zdigits2 m - 1) by ring. lia.
  - apply Z.div_lt_upper_bound; [lia|].
    rewrite <- Z.pow_add_r by lia. replace (k + (Zdigits2 m - k)) with (Zdigits2 m) by ring. lia.
Qed.

(** ** Magnitude *)
Lemma F2R_mag m e :
  0 < m -> (pow2 (Zdigits2 m + e - 1) <= F2R m e < pow2 (Zdigits2 m + e))%R.
Proof.
  intros Hm. pose proof (Zdigits2_bounds m Hm) as [Blo Bhi].
  pose proof (Zdigits2_pos m Hm).
  unfold F2R.
  replace (Zdigits2 m + e - 1) with ((Zdigits2 m - 1) + e) by ring.
  rewrite !pow2_add, (pow2_IZR (Zdigits2 m - 1)), (pow2_IZR (Zdigits2 m))
    by lia.
  apply IZR_le in Blo. apply IZR_lt in Bhi. pose proof (pow2_pos e).
  split; [apply Rmult_le_compat_r | apply Rmult_lt_compat_r]; lra.
Qed.

Lemma F2R_mag_le m1 e1 m2 e2 :
  0 < m1 -> 0 < m2 -> (F2R m1 e1 <= F2R m2 e2)%R ->
  Zdigits2 m1 + e1 <= Zdigits2 m2 + e2.
Proof.
  intros H1 H2 H.
  pose proof (F2R_mag m1 e1 H1) as [A _].
  pose proof (F2R_mag m2 e2 H2) as [_ B].
  assert (pow2 (Zdigits2 m1 + e1 - 1) < pow2 (Zdigits2 m2 + e2))%R by lra.
  apply pow2_lt_inv in H0. lia.
Qed.

Lemma fexp_mono a b : a <= b -> fexp prec emax a <= fexp prec emax b.
Proof. unfold fexp, SpecFloat.emin. lia. Qed.

Lemma loc_of_shr_record_exact x :
  loc_exact (loc_of_shr_record x) = rec_exact x.
Proof. destruct x as [m [|] [|]]; reflexivity. Qed.

Lemma shr_record_of_loc_m m l : shr_m (shr_record_of_loc m l) = m.
Proof. destruct l as [|[| |]]; reflexivity. Qed.

Lemma shr_record_of_loc_exact m l :
  rec_exact (shr_record_of_loc m l) = loc_exact l.
Proof. destruct l as [|[| |]]; reflexivity. Qed.

Lemma shr_1_spec x :
  0 <= shr_m x ->
  shr_m (shr_1 x) = shr_m x / 2 /\
  rec_exact (shr_1 x) = rec_exact x && (shr_m x mod 2 =? 0).
Proof.
  destruct x as [m r s]; simpl. intros Hm.
  destruct m as [|[p|p|]|p]; try lia; unfold rec_exact; simpl shr_m; simpl shr_r; simpl shr_s.
  - split; [reflexivity|]. simpl. now rewrite andb_true_r.
  - split.
    + rewrite Pos2Z.inj_xI. apply Z.div_unique with 1; lia.
    + replace (Z.pos p~1 mod 2) with 1.
      * simpl. now rewrite andb_false_r.
      * rewrite Pos2Z.inj_xI. apply Z.mod_unique with (Z.pos p); lia.
  - split.
    + rewrite Pos2Z.inj_xO. apply Z.div_unique with 0; lia.
    + replace (Z.pos p~0 mod 2) with 0.
      * simpl. now rewrite andb_true_r.
      * rewrite Pos2Z.inj_xO. apply Z.mod_unique with (Z.pos p); lia.
  - split; [reflexivity|]. simpl. now rewrite andb_false_r.
Qed.

Lemma mod_mul_zero m a b :
  0 < a -> 0 < b ->
  (m mod (a * b) =? 0) = (m mod a =? 0) && ((m / a) mod b =? 0).
Proof.
  intros Ha Hb. rewrite Z.rem_mul_r by lia.
  pose proof (Z.mod_pos_bound m a Ha). pose proof (Z.mod_pos_bound (m / a) b Hb).
  destruct (Z.eqb_spec (m mod a) 0) as [E1|E1];
  destruct (Z.eqb_spec ((m / a) mod b) 0) as [E2|E2]; simpl;
    apply Z.eqb_eq || apply Z.eqb_neq; nia.
Qed.

Lemma iter_shr_1_spec p : forall x,
  0 <= shr_m x ->
  shr_m (SpecFloat.iter_pos shr_1 p x) = shr_m x / 2 ^ Zpos p /\
  rec_exact (SpecFloat.iter_pos shr_1 p x)
    = rec_exact x && (shr_m x mod 2 ^ Zpos p =? 0).
Proof.
  induction p as [p IH|p IH|]; intros x Hx.
  - simpl SpecFloat.iter_pos.
    destruct (shr_1_spec x Hx) as [M1 E1].
    assert (H1 : 0 <= shr_m (shr_1 x)) by (rewrite M1; apply Z.div_pos; lia).
    destruct (IH _ H1) as [M2 E2].
    assert (H2 : 0 <= shr_m (SpecFloat.iter_pos shr_1 p (shr_1 x)))
      by (rewrite M2; apply Z.div_pos; [lia | apply Z.pow_pos_nonneg; lia]).
    destruct (IH _ H2) as [M3 E3].
    assert (P : 0 < 2 ^ Z.pos p) by (apply Z.pow_pos_nonneg; lia).
    assert (Hp : 2 ^ Z.pos p~1 = 2 * (2 ^ Z.pos p * 2 ^ Z.pos p)).
    { rewrite Pos2Z.inj_xI.
      replace (2 * Z.pos p + 1) with (1 + (Z.pos p + Z.pos p)) by ring.
      rewrite !Z.pow_add_r by lia. reflexivity. }
    split.
    + rewrite M3, M2, M1, !Z.div_div by lia. now rewrite Hp.
    + rewrite E3, E2, E1, M2, M1, Hp.
      rewrite (mod_mul_zero (shr_m x) 2) by lia.
      rewrite (mod_mul_zero (shr_m x / 2)) by lia.
      now rewrite !andb_assoc.
  - simpl SpecFloat.iter_pos.
    destruct (IH _ Hx) as [M2 E2].
    assert (H2 : 0 <= shr_m (SpecFloat.iter_pos shr_1 p x))
      by (rewrite M2; apply Z.div_pos; [lia | apply Z.pow_pos_nonneg; lia]).
    destruct (IH _ H2) as [M3 E3].
    assert (P : 0 < 2 ^ Z.pos p) by (apply Z.pow_pos_nonneg; lia).
    assert (Hp : 2 ^ Z.pos p~0 = 2 ^ Z.pos p * 2 ^ Z.pos p).
    { change (Z.pos p~0) with (2 * Z.pos p).
      replace (2 * Z.pos p) with (Z.pos p + Z.pos p) by ring.
      rewrite Z.pow_add_r by lia. reflexivity. }
    split.
    + rewrite M3, M2, !Z.div_div by lia. now rewrite Hp.
    + rewrite E3, E2, M2, Hp.
      rewrite (mod_mul_zero (shr_m x)) by lia.
      now rewrite !andb_assoc.
  - simpl SpecFloat.iter_pos. change (2 ^ 1) with 2. apply shr_1_spec, Hx.
Qed.

(** [shr_fexp] truncates to the exponent of the format. *)
Lemma shr_fexp_spec m e l :
  0 <= m ->
  let n := Z.max (fexp prec emax (Zdigits2 m + e) - e) 0 in
  shr_m (fst (shr_fexp prec emax m e l)) = m / 2 ^ n /\
  snd (shr_fexp prec emax m e l) = e + n /\
  rec_exact (fst (shr_fexp prec emax m e l))
    = loc_exact l && (m mod 2 ^ n =? 0).
Proof.
  intros Hm n. unfold shr_fexp, shr. subst n.
  destruct (fexp prec emax (Zdigits2 m + e) - e) as [|p|p] eqn:En.
  - simpl. rewrite shr_record_of_loc_m, shr_record_of_loc_exact, Z.div_1_r, Z.mod_1_r, Z.add_0_r.
    now rewrite andb_true_r.
  - rewrite Z.max_l by lia. cbn [fst snd].
    assert (H0 : 0 <= shr_m (shr_record_of_loc m l)) by now rewrite shr_record_of_loc_m.
    destruct (iter_shr_1_spec p _ H0) as [M E].
    rewrite shr_record_of_loc_m in M. rewrite shr_record_of_loc_m, shr_record_of_loc_exact in E.
    auto.
  - rewrite Z.max_r by lia. 
    simpl. rewrite shr_record_of_loc_m, shr_record_of_loc_exact, Z.div_1_r, Z.mod_1_r, Z.add_0_r.
    now rewrite andb_true_r.
Qed.

Lemma round_nearest_even_bounds m l :
  m <= round_nearest_even m l <= m + 1 /\
  (loc_exact l = true -> round_nearest_even m l = m).
Proof.
  destruct l as [|[| |]]; simpl; try (split; [lia|congruence]).
  destruct (Z.even m); split; (lia || congruence).
Qed.

Lemma bounded_props mf ef :
  SpecFloat.bounded prec emax mf ef = true ->
  fexp prec emax (Zdigits2 (Zpos mf) + ef) = ef /\
  ef <= emax - prec /\ emin <= ef /\ Zdigits2 (Zpos mf) <= prec.
Proof.
  unfold SpecFloat.bounded, canonical_mantissa. rewrite andb_true_iff, Z.eqb_eq, Z.leb_le.
  intros [Hc Hb]. simpl Zdigits2. split; [exact Hc|]. split; [exact Hb|].
  revert Hc. unfold fexp, SpecFloat.emin. lia.
Qed.

Lemma bounded_lt_emax mf ef :
  SpecFloat.bounded prec emax mf ef = true -> (F2R (Zpos mf) ef < pow2 emax)%R.
Proof.
  intros Hb. destruct (bounded_props mf ef Hb) as (_ & He & _ & Hd).
  pose proof (F2R_mag (Zpos mf) ef (Pos2Z.is_pos mf)) as [_ H].
  eapply Rlt_le_trans; [exact H|]. apply pow2_le. lia.
Qed.

Lemma F2R_pos m e : 0 < m -> (0 < F2R m e)%R.
Proof.
  intros H. unfold F2R. apply Rmult_lt_0_compat; [now apply IZR_lt | apply pow2_pos].
Qed.

Lemma F2R_mono m1 m2 e : m1 <= m2 -> (F2R m1 e <= F2R m2 e)%R.
Proof. apply F2R_le_same. Qed.

(** Truncating below: a representable number under the value stays under
    the truncated value. *)
Lemma trunc_lower mf ef mx ex :
  SpecFloat.bounded prec emax mf ef = true -> 0 < mx ->
  (F2R (Zpos mf) ef <= F2R mx ex)%R ->
  let n := Z.max (fexp prec emax (Zdigits2 mx + ex) - ex) 0 in
  (F2R (Zpos mf) ef <= F2R (mx / 2 ^ n) (ex + n))%R.
Proof.
  intros Hb Hmx Hle n.
  destruct (bounded_props mf ef Hb) as (Hc & He & Hemin & Hd).
  assert (Hn : 0 <= n) by (subst n; lia).
  assert (P : 0 < 2 ^ n) by (apply Z.pow_pos_nonneg; lia).
  pose proof (F2R_mag_le _ _ _ _ (Pos2Z.is_pos mf) Hmx Hle) as Hmag.
  destruct (Z.eq_dec n 0) as [E0|E0].
  - rewrite E0. simpl. now rewrite Z.div_1_r, Z.add_0_r.
  - assert (En : ex + n = fexp prec emax (Zdigits2 mx + ex)) by (subst n; lia).
    destruct (Z.eq_dec (Zdigits2 (Zpos mf) + ef) (Zdigits2 mx + ex)) as [Ed|Ed].
    + (* same binade: both on the grid of [ex + n] *)
      rewrite Ed in Hc. rewrite <- En in Hc. rewrite <- Hc.
      apply F2R_mono. apply Z.div_le_lower_bound; [lia|].
      apply (F2R_le_same _ _ ex). rewrite Z.mul_comm, F2R_shift by lia.
      now rewrite Hc.
    + (* a lower binade *)
      set (D := Zdigits2 mx + ex) in *.
      assert (Hk : 0 <= D - 1 - (ex + n)).
      { rewrite En. pose proof (Zdigits2_pos (Zpos mf) (Pos2Z.is_pos mf)).
        unfold fexp, SpecFloat.emin in *. lia. }
      pose proof (Zdigits2_bounds mx Hmx) as [Blo _].
      assert (2 ^ (D - 1 - (ex + n)) <= mx / 2 ^ n).
      { apply Z.div_le_lower_bound; [lia|].
        rewrite <- Z.pow_add_r by lia.
        replace (n + (D - 1 - (ex + n))) with (Zdigits2 mx - 1) by (unfold D; ring).
        exact Blo. }
      pose proof (F2R_mag (Zpos mf) ef (Pos2Z.is_pos mf)) as [_ Hhi].
      apply (F2R_mono _ _ (ex + n)) in H.
      unfold F2R at 1 in H. rewrite <- pow2_IZR, <- pow2_add in H by lia.
      replace (D - 1 - (ex + n) + (ex + n)) with (D - 1) in H by ring.
      assert (pow2 (Zdigits2 (Zpos mf) + ef) <= pow2 (D - 1))%R by (apply pow2_le; lia).
      lra.
Qed.

Lemma under_le f m e b : under f m e b -> (F2R m e <= f)%R.
Proof.
  intros [H|[H _]]; [|exact H].
  eapply Rle_trans; [|exact H]. apply F2R_mono. lia.
Qed.

Lemma trunc_upper mf ef mx ex (b : bool) :
  SpecFloat.bounded prec emax mf ef = true -> 0 <= mx ->
  ex <= fexp prec emax (Zdigits2 mx + ex) ->
  under (F2R (Zpos mf) ef) mx ex b ->
  let n := fexp prec emax (Zdigits2 mx + ex) - ex in
  under (F2R (Zpos mf) ef) (mx / 2 ^ n) (ex + n) (b && (mx mod 2 ^ n =? 0)).
Proof.
  intros Hb Hmx Hex Hu n.
  destruct (bounded_props mf ef Hb) as (Hc & He & Hemin & Hd).
  assert (Hn : 0 <= n) by (subst n; lia).
  assert (P : 0 < 2 ^ n) by (apply Z.pow_pos_nonneg; lia).
  assert (En : ex + n = fexp prec emax (Zdigits2 mx + ex)) by (subst n; lia).
  pose proof (under_le _ _ _ _ Hu) as Hle.
  pose proof (Z.div_mod mx (2 ^ n) ltac:(lia)) as Hdm.
  pose proof (Z.mod_pos_bound mx (2 ^ n) P) as Hmod.
  assert (Hgrid : ex + n <= ef).
  { destruct (Z.eq_dec mx 0) as [E0|E0].
    - subst mx. simpl Zdigits2 in *. rewrite En.
      revert Hex Hemin. unfold fexp, SpecFloat.emin. lia.
    - assert (Hmx' : 0 < mx) by lia.
      pose proof (F2R_mag_le _ _ _ _ Hmx' (Pos2Z.is_pos mf) Hle) as Hmag.
      rewrite En, <- Hc. now apply fexp_mono. }
  assert (HF : F2R (Zpos mf) ef = F2R (Zpos mf * 2 ^ (ef - (ex + n))) (ex + n)).
  { rewrite F2R_shift by lia. f_equal. ring. }
  destruct (b && (mx mod 2 ^ n =? 0)) eqn:Eb.
  - right. split; [|reflexivity].
    apply andb_true_iff in Eb. destruct Eb as [_ Eb]. apply Z.eqb_eq in Eb.
    replace (F2R (mx / 2 ^ n) (ex + n)) with (F2R mx ex); [exact Hle|].
    rewrite <- F2R_shift by lia. f_equal. lia.
  - left. rewrite HF. apply F2R_mono.
    assert (Hstrict : (F2R (mx / 2 ^ n * 2 ^ n) ex < F2R (Zpos mf) ef)%R).
    { destruct Hu as [Hu|[Hu Hb']].
      - eapply Rlt_le_trans; [|exact Hu]. apply F2R_lt_same. lia.
      - subst b. simpl in Eb. apply Z.eqb_neq in Eb.
        eapply Rlt_le_trans; [|exact Hu]. apply F2R_lt_same. lia. }
    rewrite F2R_shift, HF in Hstrict by lia.
    apply F2R_lt_same in Hstrict. lia.
Qed.

Lemma binary_round_aux_eq sx mx ex lx :
  binary_round_aux prec emax sx mx ex lx =
  let s1 := shr_fexp prec emax mx ex lx in
  let m1 := round_nearest_even (shr_m (fst s1)) (loc_of_shr_record (fst s1)) in
  let s2 := shr_fexp prec emax m1 (snd s1) loc_Exact in
  match shr_m (fst s2) with
  | Z0 => S754_zero sx
  | Zpos m =>
      if snd s2 <=? emax - prec then S754_finite sx m (snd s2)
      else S754_infinity sx
  | Zneg _ => S754_nan
  end.
Proof.
  unfold binary_round_aux.
  destruct (shr_fexp prec emax mx ex lx) as [r1 e1]. cbn [fst snd].
  destruct (shr_fexp prec emax _ e1 loc_Exact) as [r2 e2]. reflexivity.
Qed.

(** Rounding stays above a representable number that is under the value. *)
Lemma binary_round_aux_lower mf ef sx mx ex lx :
  SpecFloat.bounded prec emax mf ef = true -> 0 < mx ->
  (F2R (Zpos mf) ef <= F2R mx ex)%R ->
  binary_round_aux prec emax sx mx ex lx = S754_infinity sx \/
  exists mz ez,
    binary_round_aux prec emax sx mx ex lx = S754_finite sx mz ez /\
    (F2R (Zpos mf) ef <= F2R (Zpos mz) ez)%R.
Proof.
  intros Hb Hmx Hle. rewrite binary_round_aux_eq. cbv zeta.
  destruct (shr_fexp_spec mx ex lx ltac:(lia)) as (M1 & E1 & _).
  pose proof (trunc_lower mf ef mx ex Hb Hmx Hle) as T1. cbv zeta in T1.
  rewrite <- M1, <- E1 in T1.
  set (s1 := shr_fexp prec emax mx ex lx) in *.
  set (m1 := round_nearest_even (shr_m (fst s1)) (loc_of_shr_record (fst s1))).
  pose proof (round_nearest_even_bounds (shr_m (fst s1)) (loc_of_shr_record (fst s1))) as [[R1 _] _].
  fold m1 in R1.
  pose proof (F2R_pos (Zpos mf) ef (Pos2Z.is_pos mf)) as Fpos.
  assert (Hm' : 0 < shr_m (fst s1)).
  { destruct (Z_lt_le_dec 0 (shr_m (fst s1))) as [H|H]; [exact H|].
    apply (F2R_mono _ 0 (snd s1)) in H. unfold F2R at 2 in H. lra. }
  assert (Hm1 : 0 < m1) by lia.
  assert (T1' : (F2R (Zpos mf) ef <= F2R m1 (snd s1))%R).
  { eapply Rle_trans; [exact T1|]. now apply F2R_mono. }
  destruct (shr_fexp_spec m1 (snd s1) loc_Exact ltac:(lia)) as (M2 & E2 & _).
  pose proof (trunc_lower mf ef m1 (snd s1) Hb Hm1 T1') as T2. cbv zeta in T2.
  rewrite <- M2, <- E2 in T2.
  set (s2 := shr_fexp prec emax m1 (snd s1) loc_Exact) in *.
  destruct (shr_m (fst s2)) as [|m|m] eqn:Em.
  - unfold F2R at 2 in T2. lra.
  - destruct (snd s2 <=? emax - prec); [right|left; reflexivity].
    exists m, (snd s2). split; [reflexivity|exact T2].
  - assert (F2R (Z.neg m) (snd s2) <= F2R 0 (snd s2))%R by (apply F2R_mono; lia).
    unfold F2R at 2 in H. lra.
Qed.

(** Rounding stays under a representable number that is above the value. *)
Lemma binary_round_aux_upper mf ef sx mx ex lx :
  SpecFloat.bounded prec emax mf ef = true -> 0 <= mx ->
  ex <= fexp prec emax (Zdigits2 mx + ex) ->
  under (F2R (Zpos mf) ef) mx ex (loc_exact lx) ->
  binary_round_aux prec emax sx mx ex lx = S754_zero sx \/
  exists mz ez,
    binary_round_aux prec emax sx mx ex lx = S754_finite sx mz ez /\
    (F2R (Zpos mz) ez <= F2R (Zpos mf) ef)%R.
Proof.
  intros Hb Hmx Hex Hu. rewrite binary_round_aux_eq. cbv zeta.
  destruct (shr_fexp_spec mx ex lx Hmx) as (M1 & E1 & X1).
  rewrite Z.max_l in M1, E1, X1 by lia.
  pose proof (trunc_upper mf ef mx ex _ Hb Hmx Hex Hu) as T1. cbv zeta in T1.
  rewrite <- M1, <- E1, <- X1 in T1.
  set (s1 := shr_fexp prec emax mx ex lx) in *.
  set (m1 := round_nearest_even (shr_m (fst s1)) (loc_of_shr_record (fst s1))).
  pose proof (round_nearest_even_bounds (shr_m (fst s1)) (loc_of_shr_record (fst s1))) as [[R1 R2] R3].
  fold m1 in R1, R2, R3. rewrite loc_of_shr_record_exact in R3.
  assert (P : 0 < 2 ^ (fexp prec emax (Zdigits2 mx + ex) - ex))
    by (apply Z.pow_pos_nonneg; lia).
  assert (Hm' : 0 <= shr_m (fst s1)) by (rewrite M1; apply Z.div_pos; lia).
  assert (T1' : (F2R m1 (snd s1) <= F2R (Zpos mf) ef)%R).
  { destruct T1 as [T1|[T1 T1x]].
    - eapply Rle_trans; [|exact T1]. now apply F2R_mono.
    - rewrite (R3 T1x). exact T1. }
  destruct (shr_fexp_spec m1 (snd s1) loc_Exact ltac:(lia)) as (M2 & E2 & _).
  set (n2 := Z.max (fexp prec emax (Zdigits2 m1 + snd s1) - snd s1) 0) in *.
  assert (P2 : 0 < 2 ^ n2) by (apply Z.pow_pos_nonneg; subst n2; lia).
  assert (T2 : (F2R (m1 / 2 ^ n2) (snd s1 + n2) <= F2R (Zpos mf) ef)%R).
  { eapply Rle_trans; [|exact T1'].
    rewrite <- F2R_shift by (subst n2; lia). apply F2R_mono.
    rewrite Z.mul_comm. apply Z.mul_div_le. lia. }
  rewrite <- M2, <- E2 in T2.
  set (s2 := shr_fexp prec emax m1 (snd s1) loc_Exact) in *.
  destruct (shr_m (fst s2)) as [|m|m] eqn:Em.
  - left; reflexivity.
  - right. exists m, (snd s2).
    destruct (Z.leb_spec (snd s2) (emax - prec)) as [Hok|Hov];
      [split; [reflexivity|exact T2]|].
    exfalso.
    pose proof (bounded_lt_emax mf ef Hb) as Fmax.
    assert (Hm1 : 0 < m1).
    { destruct (Z.eq_dec m1 0) as [E0|E0]; [|lia].
      rewrite E0, Z.div_0_l in M2 by lia. lia. }
    destruct (Z.eq_dec n2 0) as [En2|En2].
    + (* no second shift: the exponent is the one of the first stage *)
      rewrite En2, Z.add_0_r in E2. rewrite E2, E1 in Hov.
      replace (ex + (fexp prec emax (Zdigits2 mx + ex) - ex))
        with (fexp prec emax (Zdigits2 mx + ex)) in Hov by ring.
      destruct (Z.eq_dec mx 0) as [E0|E0].
      * subst mx. simpl Zdigits2 in *. revert Hex Hov.
        unfold fexp, SpecFloat.emin, emax, prec. lia.
      * assert (Hmx' : 0 < mx) by lia.
        pose proof (F2R_mag mx ex Hmx') as [Hlo _].
        pose proof (under_le _ _ _ _ Hu) as Hle.
        assert (pow2 emax <= pow2 (Zdigits2 mx + ex - 1))%R.
        { apply pow2_le. revert Hov. unfold fexp, SpecFloat.emin, emax, prec. lia. }
        lra.
    + assert (E2' : snd s2 = fexp prec emax (Zdigits2 m1 + snd s1)) by (subst n2; lia).
      pose proof (F2R_mag m1 (snd s1) Hm1) as [Hlo _].
      assert (pow2 emax <= pow2 (Zdigits2 m1 + snd s1 - 1))%R.
      { apply pow2_le. revert Hov. rewrite E2'.
        unfold fexp, SpecFloat.emin, emax, prec. lia. }
      lra.
  - exfalso. assert (0 <= m1 / 2 ^ n2) by (apply Z.div_pos; lia). lia.
Qed.

(** The result of rounding is a number of the format. *)
Lemma binary_round_aux_valid sx mx ex lx :
  0 <= mx -> ex <= fexp prec emax (Zdigits2 mx + ex) ->
  valid_binary (binary_round_aux prec emax sx mx ex lx) = true.
Proof.
  intros Hmx Hex. rewrite binary_round_aux_eq. cbv zeta.
  destruct (shr_fexp_spec mx ex lx Hmx) as (M1 & E1 & _).
  rewrite Z.max_l in M1, E1 by lia.
  remember (fexp prec emax (Zdigits2 mx + ex) - ex) as n eqn:Dn.
  assert (Hn : 0 <= n) by lia.
  assert (P : 0 < 2 ^ n) by (apply Z.pow_pos_nonneg; lia).
  set (s1 := shr_fexp prec emax mx ex lx) in *.
  set (m1 := round_nearest_even (shr_m (fst s1)) (loc_of_shr_record (fst s1))).
  pose proof (round_nearest_even_bounds (shr_m (fst s1)) (loc_of_shr_record (fst s1))) as [[R1 R2] _].
  fold m1 in R1, R2.
  assert (Hm' : 0 <= shr_m (fst s1)) by (rewrite M1; apply Z.div_pos; lia).
  destruct (shr_fexp_spec m1 (snd s1) loc_Exact ltac:(lia)) as (M2 & E2 & _).
  set (n2 := Z.max (fexp prec emax (Zdigits2 m1 + snd s1) - snd s1) 0) in *.
  assert (P2 : 0 < 2 ^ n2) by (apply Z.pow_pos_nonneg; subst n2; lia).
  set (s2 := shr_fexp prec emax m1 (snd s1) loc_Exact) in *.
  destruct (shr_m (fst s2)) as [|m|m] eqn:Em; try reflexivity.
  destruct (Z.leb_spec (snd s2) (emax - prec)) as [Hok|Hov]; [|reflexivity].
  simpl. unfold SpecFloat.bounded, canonical_mantissa.
  apply andb_true_iff. split; [|now apply Z.leb_le].
  apply Z.eqb_eq.
  assert (Hm1 : 0 < m1).
  { destruct (Z.eq_dec m1 0) as [E0|E0]; [|lia].
    rewrite E0, Z.div_0_l in M2 by lia. lia. }
  assert (E1' : snd s1 = fexp prec emax (Zdigits2 mx + ex)) by lia.
  (* the exponent of the format for the rounded mantissa is not below [snd s1] *)
  assert (Hraw : snd s1 <= fexp prec emax (Zdigits2 m1 + snd s1)).
  { destruct (Z.eq_dec (shr_m (fst s1)) 0) as [Ez|Ez].
    - assert (m1 = 1) by lia.
      assert (Hsmall : mx < 2 ^ n).
      { rewrite Ez in M1. symmetry in M1.
        apply Z.div_small_iff in M1; lia. }
      assert (Hemin : snd s1 = emin).
      { rewrite E1'. destruct (Z.eq_dec mx 0) as [E0|E0].
        - subst mx. simpl Zdigits2 in *. revert Hex.
          unfold fexp, SpecFloat.emin, prec, emax. lia.
        - assert (Hmx' : 0 < mx) by lia.
          pose proof (Zdigits2_bounds mx Hmx') as [Blo _].
          assert (Zdigits2 mx <= n).
          { destruct (Z_lt_le_dec n (Zdigits2 mx)) as [Hc|Hc]; [|lia].
            assert (2 ^ n <= 2 ^ (Zdigits2 mx - 1)) by (apply Z.pow_le_mono_r; lia).
            lia. }
          revert H0 Dn. unfold fexp, SpecFloat.emin, prec, emax. lia. }
      rewrite H, Hemin. vm_compute. discriminate.
    - assert (Hm0 : 0 < shr_m (fst s1)) by lia.
      assert (Hge : 2 ^ n <= mx).
      { destruct (Z_lt_le_dec mx (2 ^ n)) as [Hc|Hc]; [|exact Hc].
        rewrite Z.div_small in M1 by lia. lia. }
      assert (Hmx' : 0 < mx) by lia.
      pose proof (Zdigits2_div mx n Hmx' Hn Hge) as Hd. rewrite <- M1 in Hd.
      pose proof (Zdigits2_le _ _ Hm0 R1) as Hd1.
      rewrite E1' at 1. apply fexp_mono. lia. }
  assert (E2' : snd s2 = fexp prec emax (Zdigits2 m1 + snd s1)) by (subst n2; lia).
  change (Z.pos (digits2_pos m)) with (Zdigits2 (Zpos m)).
  rewrite M2.
  destruct (Z.eq_dec n2 0) as [En2|En2].
  - rewrite En2, Z.div_1_r. rewrite E2 at 1. rewrite En2, Z.add_0_r. now rewrite <- E2'.
  - assert (Hge : 2 ^ n2 <= m1).
    { destruct (Z_lt_le_dec m1 (2 ^ n2)) as [Hc|Hc]; [|exact Hc].
      rewrite Z.div_small in M2 by lia. lia. }
    rewrite Zdigits2_div by (subst n2; lia).
    rewrite E2 at 1.
    replace (Zdigits2 m1 - n2 + (snd s1 + n2)) with (Zdigits2 m1 + snd s1) by ring.
    now rewrite <- E2'.
Qed.

Lemma shl_align_spec mx ex ex' :
  snd (shl_align mx ex ex') = Z.min ex ex' /\
  Zpos (fst (shl_align mx ex ex'))
    = Zpos mx * 2 ^ (ex - snd (shl_align mx ex ex')).
Proof.
  unfold shl_align. destruct (ex' - ex) as [|d|d] eqn:Ed; cbn [fst snd].
  - split; [lia|]. rewrite Z.sub_diag. simpl. lia.
  - split; [lia|]. rewrite Z.sub_diag. simpl. lia.
  - split; [lia|]. replace (ex - ex') with (Zpos d) by lia.
    change (Pos.iter xO mx d) with (shift_pos d mx).
    rewrite shift_pos_correct. change (Z.pow_pos 2 d) with (2 ^ Zpos d). ring.
Qed.

Lemma shl_align_value mx ex ex' :
  F2R (Zpos (fst (shl_align mx ex ex'))) (snd (shl_align mx ex ex'))
    = F2R (Zpos mx) ex.
Proof.
  destruct (shl_align_spec mx ex ex') as [E1 E2].
  rewrite E2, F2R_shift by lia. f_equal. ring.
Qed.

(** [binary_round] is [binary_round_aux] on an exact value with enough
    digits. *)
Lemma binary_round_eq s mx ex :
  exists mz ez,
    binary_round prec emax s mx ex
      = binary_round_aux prec emax s (Zpos mz) ez loc_Exact /\
    F2R (Zpos mz) ez = F2R (Zpos mx) ex /\
    ez <= fexp prec emax (Zdigits2 (Zpos mz) + ez).
Proof.
  unfold binary_round.
  pose proof (shl_align_spec mx ex (fexp prec emax (Zpos (digits2_pos mx) + ex))) as [E1 E2].
  pose proof (shl_align_value mx ex (fexp prec emax (Zpos (digits2_pos mx) + ex))) as E3.
  destruct (shl_align mx ex _) as [mz ez]. cbn [fst snd] in *.
  exists mz, ez. split; [reflexivity|]. split; [exact E3|].
  rewrite E2, Zdigits2_shiftl by lia.
  replace (Zdigits2 (Z.pos mx) + (ex - ez) + ez) with (Zdigits2 (Zpos mx) + ex) by ring.
  change (Zdigits2 (Z.pos mx)) with (Z.pos (digits2_pos mx)). lia.
Qed.


Lemma binary_round_valid s mx ex :
  valid_binary (binary_round prec emax s mx ex) = true.
Proof.
  destruct (binary_round_eq s mx ex) as (mz & ez & E & V & P).
  rewrite E. apply binary_round_aux_valid; [lia|exact P].
Qed.

(** ** Order of the numbers of the format *)

Lemma bounded_compare m1 e1 m2 e2 :
  SpecFloat.bounded prec emax m1 e1 = true ->
  SpecFloat.bounded prec emax m2 e2 = true ->
  e1 < e2 -> (F2R (Zpos m1) e1 < F2R (Zpos m2) e2)%R.
Proof.
  intros H1 H2 He.
  destruct (bounded_props m1 e1 H1) as (C1 & _ & Emin1 & D1).
  destruct (bounded_props m2 e2 H2) as (C2 & _ & _ & _).
  pose proof (F2R_mag (Zpos m1) e1 (Pos2Z.is_pos m1)) as [_ Hhi].
  pose proof (F2R_mag (Zpos m2) e2 (Pos2Z.is_pos m2)) as [Hlo _].
  assert (pow2 (Zdigits2 (Zpos m1) + e1) <= pow2 (Zdigits2 (Zpos m2) + e2 - 1))%R.
  { apply pow2_le. revert C2 D1 Emin1 He. unfold fexp, SpecFloat.emin, prec, emax. lia. }
  lra.
Qed.




(** ** Subtraction of a smaller number *)


Lemma F2R_one : F2R (Zpos 4503599627370496) (-52) = 1%R.
Proof.
  change (Zpos 4503599627370496) with (2 ^ 52).
  unfold F2R. rewrite <- pow2_IZR, <- pow2_add by lia. reflexivity.
Qed.

Lemma bounded_one : SpecFloat.bounded prec emax 4503599627370496 (-52) = true.
Proof. reflexivity. Qed.

Lemma new_location_exact nb k : loc_exact (new_location nb k) = (k =? 0).
Proof.
  unfold new_location, new_location_even, new_location_odd.
  destruct (Z.even nb); destruct (k =? 0); reflexivity.
Qed.

(** The quotient that [SFdiv] rounds: truncated at an exponent [e'] that
    leaves at least the digits of the format. *)
Lemma SFdiv_core_spec m1 e1 m2 e2 :
  0 < m1 -> 0 < m2 ->
  let c := SFdiv_core_binary prec emax m1 e1 m2 e2 in
  let e' := snd (fst c) in
  let s := e1 - e2 - e' in
  e' = Z.min (fexp prec emax (Zdigits2 m1 + e1 - (Zdigits2 m2 + e2))) (e1 - e2) /\
  fst (fst c) = (m1 * 2 ^ s) / m2 /\
  loc_exact (snd c) = ((m1 * 2 ^ s) mod m2 =? 0) /\
  e' <= fexp prec emax (Zdigits2 (fst (fst c)) + e').
Proof.
  intros H1 H2 c e' s.
  unfold SFdiv_core_binary in c.
  set (X := Zdigits2 m1 + e1 - (Zdigits2 m2 + e2)) in *.
  set (e0 := Z.min (fexp prec emax X) (e1 - e2)) in *.
  set (m' := match e1 - e2 - e0 with
             | 0 => m1 | Z.pos _ => Z.shiftl m1 (e1 - e2 - e0) | Z.neg _ => 0
             end) in *.
  assert (Hm' : m' = m1 * 2 ^ (e1 - e2 - e0)).
  { subst m'. assert (0 <= e1 - e2 - e0) by (subst e0; lia).
    destruct (e1 - e2 - e0) as [|p|p] eqn:E; [simpl; lia| |lia].
    rewrite Z.shiftl_mul_pow2 by lia. reflexivity. }
  assert (Hc : c = (m' / m2, e0, new_location m2 (m' mod m2))).
  { subst c. unfold Z.div, Z.modulo. destruct (Z.div_eucl m' m2). reflexivity. }
  assert (He' : e' = e0) by (subst e'; rewrite Hc; reflexivity).
  assert (Hs : s = e1 - e2 - e0) by (subst s; now rewrite He').
  assert (Hs0 : 0 <= s) by (rewrite Hs; subst e0; lia).
  rewrite Hc; cbn [fst snd]. rewrite new_location_exact, Hm', <- Hs.
  split; [exact He'|]. split; [reflexivity|]. split; [reflexivity|].
  rewrite He'.
  assert (P : 0 < 2 ^ s) by (apply Z.pow_pos_nonneg; lia).
  pose proof (Zdigits2_bounds m1 H1) as [B1lo B1hi].
  pose proof (Zdigits2_bounds m2 H2) as [B2lo B2hi].
  pose proof (Zdigits2_pos m1 H1) as D1. pose proof (Zdigits2_pos m2 H2) as D2.
  assert (HM : 2 ^ (Zdigits2 m1 - 1 + s) <= m1 * 2 ^ s).
  { rewrite Z.pow_add_r by lia. nia. }
  set (q := m1 * 2 ^ s / m2).
  assert (Hq0 : 0 <= q) by (apply Z.div_pos; nia).
  destruct (Z.eq_dec q 0) as [Eq0|Eq0].
  - rewrite Eq0. simpl Zdigits2.
    assert (Hlt : m1 * 2 ^ s < m2).
    { apply Z.div_small_iff in Eq0; nia. }
    assert (Hd : Zdigits2 m1 - 1 + s < Zdigits2 m2).
    { destruct (Z_lt_le_dec (Zdigits2 m1 - 1 + s) (Zdigits2 m2)) as [Hc'|Hc']; [exact Hc'|].
      assert (2 ^ Zdigits2 m2 <= 2 ^ (Zdigits2 m1 - 1 + s)) by (apply Z.pow_le_mono_r; lia).
      lia. }
    assert (HX : X <= e0) by (unfold X; lia).
    assert (He0 : e0 <= fexp prec emax X) by (subst e0; lia).
    revert HX He0. unfold fexp, SpecFloat.emin, prec, emax. lia.
  - assert (Hq : 0 < q) by lia.
    assert (Hdq : X - e0 <= Zdigits2 q).
    { pose proof (Zdigits2_pos q Hq).
      destruct (Z_lt_le_dec (Zdigits2 m1 - 1 + s - Zdigits2 m2) 0) as [Hk|Hk].
      - unfold X. lia.
      - assert (2 ^ (Zdigits2 m1 - 1 + s - Zdigits2 m2) <= q).
        { apply Z.div_le_lower_bound; [lia|].
          assert (m2 * 2 ^ (Zdigits2 m1 - 1 + s - Zdigits2 m2)
                  <= 2 ^ Zdigits2 m2 * 2 ^ (Zdigits2 m1 - 1 + s - Zdigits2 m2)).
          { apply Z.mul_le_mono_nonneg_r; [apply Z.pow_nonneg|]; lia. }
          rewrite <- Z.pow_add_r in H0 by lia.
          replace (Zdigits2 m2 + (Zdigits2 m1 - 1 + s - Zdigits2 m2))
            with (Zdigits2 m1 - 1 + s) in H0 by ring.
          lia. }
        pose proof (Zdigits2_bounds q Hq) as [_ Bq].
        destruct (Z_lt_le_dec (Zdigits2 m1 - 1 + s - Zdigits2 m2) (Zdigits2 q)) as [Hc'|Hc'].
        + unfold X. lia.
        + assert (2 ^ Zdigits2 q <= 2 ^ (Zdigits2 m1 - 1 + s - Zdigits2 m2))
            by (apply Z.pow_le_mono_r; lia).
          lia. }
    assert (He0 : e0 <= fexp prec emax X) by (subst e0; lia).
    eapply Z.le_trans; [exact He0|]. apply fexp_mono. lia.
Qed.

Lemma SFdiv_finite sx mx ex sy my ey :
  SF64div (S754_finite sx mx ex) (S754_finite sy my ey) =
  let c := SFdiv_core_binary prec emax (Zpos mx) ex (Zpos my) ey in
  binary_round_aux prec emax (xorb sx sy) (fst (fst c)) (snd (fst c)) (snd c).
Proof.
  unfold SF64div, SFdiv.
  destruct (SFdiv_core_binary prec emax (Zpos mx) ex (Zpos my) ey) as [[q e] l].
  reflexivity.
Qed.




Lemma Prim2SF_one : Prim2SF 1 = S754_finite false 4503599627370496 (-52).
Proof. reflexivity. Qed.

Lemma Prim2SF_zero : Prim2SF 0 = S754_zero false.
Proof. reflexivity. Qed.

Lemma Prim2SF_infinity : Prim2SF infinity = S754_infinity false.
Proof. reflexivity. Qed.

(** A Number above zero is a positive finite Number or [+Infinity]. *)
Lemma positive_cases x :
  PrimFloat.ltb 0 x = true ->
  (exists m e, Prim2SF x = S754_finite false m e) \/
  Prim2SF x = S754_infinity false.
Proof.
  rewrite FloatAxioms.ltb_spec, Prim2SF_zero. unfold SFltb, SFcompare.
  destruct (Prim2SF x) as [s|s| |s m e]; try destruct s; try discriminate; eauto.
Qed.

Lemma positive_finite x :
  PrimFloat.ltb 0 x = true -> PrimFloat.ltb x infinity = true ->
  exists m e, Prim2SF x = S754_finite false m e.
Proof.
  intros H0 Hinf. destruct (positive_cases x H0) as [H|H]; [exact H|].
  rewrite FloatAxioms.ltb_spec, Prim2SF_infinity, H in Hinf. discriminate.
Qed.

Lemma positive_not_zero x :
  PrimFloat.ltb 0 x = true -> PrimFloat.eqb x 0 = false.
Proof.
  intros H0. rewrite FloatAxioms.eqb_spec, Prim2SF_zero.
  destruct (positive_cases x H0) as [(m & e & H)|H]; rewrite H; reflexivity.
Qed.


Lemma F2R_pow m e n :
  F2R (Zpos (Pos.pow m n)) (e * Zpos n)
    = (F2R (Zpos m) e ^ Pos.to_nat n)%R.
Proof.
  unfold F2R. rewrite Rpow_mult_distr, Pos2Z.inj_pow.
  rewrite <- (positive_nat_Z n) at 1 2.
  rewrite <- pow_IZR. f_equal.
  generalize (Pos.to_nat n) as k. intros k.
  induction k as [|k IH].
  - rewrite Z.mul_0_r. reflexivity.
  - rewrite Nat2Z.inj_succ, Z.mul_succ_r, pow2_add, IH. simpl. ring.
Qed.










(* ================================================================== *)
(** * Exact arithmetic on the numbers of the format *)
(* ================================================================== *)

(** The numbers of the format have one representation. *)
Lemma bounded_unique m1 e1 m2 e2 :
  SpecFloat.bounded prec emax m1 e1 = true ->
  SpecFloat.bounded prec emax m2 e2 = true ->
  F2R (Zpos m1) e1 = F2R (Zpos m2) e2 ->
  m1 = m2 /\ e1 = e2.
Proof.
  intros H1 H2 E.
  destruct (Z.lt_trichotomy e1 e2) as [L|[L|L]].
  - pose proof (bounded_compare _ _ _ _ H1 H2 L). lra.
  - subst e2. split; [|reflexivity].
    assert (Zpos m1 <= Zpos m2) by (apply (F2R_le_same _ _ e1); lra).
    assert (Zpos m2 <= Zpos m1) by (apply (F2R_le_same _ _ e1); lra).
    lia.
  - pose proof (bounded_compare _ _ _ _ H2 H1 L). lra.
Qed.

(** Rounding a value that is a number of the format returns that number. *)
Lemma binary_round_aux_exact mf ef sx mx ex lx :
  SpecFloat.bounded prec emax mf ef = true -> 0 < mx ->
  ex <= fexp prec emax (Zdigits2 mx + ex) ->
  F2R mx ex = F2R (Zpos mf) ef -> loc_exact lx = true ->
  binary_round_aux prec emax sx mx ex lx = S754_finite sx mf ef.
Proof.
  intros Hb Hmx Hex Hv Hl.
  assert (Hle : (F2R (Zpos mf) ef <= F2R mx ex)%R) by lra.
  assert (Hu : under (F2R (Zpos mf) ef) mx ex (loc_exact lx)).
  { right. split; [lra|exact Hl]. }
  pose proof (binary_round_aux_valid sx mx ex lx ltac:(lia) Hex) as V.
  destruct (binary_round_aux_lower mf ef sx mx ex lx Hb Hmx Hle)
    as [Ei|(mz & ez & Ez & Lz)];
  destruct (binary_round_aux_upper mf ef sx mx ex lx Hb ltac:(lia) Hex Hu)
    as [Ez'|(mz' & ez' & Ez' & Uz)].
  - rewrite Ei in Ez'. discriminate.
  - rewrite Ei in Ez'. discriminate.
  - rewrite Ez in Ez'. discriminate.
  - rewrite Ez in Ez'. injection Ez' as <- <-.
    rewrite Ez in V |- *. simpl in V.
    destruct (bounded_unique mz ez mf ef V Hb ltac:(lra)) as [-> ->].
    reflexivity.
Qed.

Lemma binary_round_exact mf ef s mx ex :
  SpecFloat.bounded prec emax mf ef = true ->
  F2R (Zpos mx) ex = F2R (Zpos mf) ef ->
  binary_round prec emax s mx ex = S754_finite s mf ef.
Proof.
  intros Hb Hv.
  destruct (binary_round_eq s mx ex) as (mz & ez & E & V & P).
  rewrite E. apply binary_round_aux_exact; try assumption; try lia.
  - now rewrite V.
  - reflexivity.
Qed.

(** A quotient that is a number of the format is computed exactly. *)
Lemma SFdiv_exact mf ef sx mx ex sy my ey :
  SpecFloat.bounded prec emax mf ef = true ->
  F2R (Zpos mx) ex = (F2R (Zpos mf) ef * F2R (Zpos my) ey)%R ->
  SF64div (S754_finite sx mx ex) (S754_finite sy my ey)
    = S754_finite (xorb sx sy) mf ef.
Proof.
  intros Hb Hv. rewrite SFdiv_finite. cbv zeta.
  destruct (SFdiv_core_spec (Zpos mx) ex (Zpos my) ey (Pos2Z.is_pos mx) (Pos2Z.is_pos my))
    as (He & Hq & Hl & Hp).
  set (c := SFdiv_core_binary prec emax (Zpos mx) ex (Zpos my) ey) in *.
  set (e' := snd (fst c)) in *. set (q := fst (fst c)) in *.
  remember (ex - ey - e') as s eqn:Ds.
  destruct (bounded_props mf ef Hb) as (Hc & _ & _ & _).
  assert (Hs : 0 <= s) by lia.
  assert (P : 0 < 2 ^ s) by (apply Z.pow_pos_nonneg; lia).
  pose proof (F2R_mag (Zpos mx) ex (Pos2Z.is_pos mx)) as [Xlo Xhi].
  pose proof (F2R_mag (Zpos my) ey (Pos2Z.is_pos my)) as [Ylo Yhi].
  pose proof (F2R_mag (Zpos mf) ef (Pos2Z.is_pos mf)) as [Flo Fhi].
  pose proof (F2R_pos (Zpos my) ey (Pos2Z.is_pos my)) as Ypos.
  pose proof (F2R_pos (Zpos mf) ef (Pos2Z.is_pos mf)) as Fpos.
  (* the quotient is not below the binade the exponent was chosen for *)
  assert (Hmag : Zdigits2 (Zpos mx) + ex - (Zdigits2 (Zpos my) + ey)
                 <= Zdigits2 (Zpos mf) + ef).
  { assert (pow2 (Zdigits2 (Zpos mx) + ex - 1)
            < pow2 (Zdigits2 (Zpos mf) + ef) * pow2 (Zdigits2 (Zpos my) + ey))%R.
    { eapply Rle_lt_trans; [exact Xlo|]. rewrite Hv.
      apply Rmult_le_0_lt_compat; lra. }
    rewrite <- pow2_add in H. apply pow2_lt_inv in H. lia. }
  assert (Hgrid : e' <= ef).
  { rewrite <- Hc. eapply Z.le_trans; [|apply fexp_mono, Hmag]. lia. }
  set (k := Zpos mf * 2 ^ (ef - e')).
  assert (Pk : 0 < 2 ^ (ef - e')) by (apply Z.pow_pos_nonneg; lia).
  assert (HF : F2R (Zpos mf) ef = F2R k e').
  { unfold k. rewrite F2R_shift by lia. f_equal. ring. }
  assert (HM : Zpos mx * 2 ^ s = k * Zpos my).
  { apply eq_IZR. 
    assert (E1 : F2R (Zpos mx * 2 ^ s) (ey + e') = F2R (Zpos mx) ex).
    { rewrite F2R_shift by lia. f_equal. lia. }
    rewrite Hv, HF in E1. unfold F2R in E1.
    rewrite pow2_add in E1.
    pose proof (pow2_pos ey). pose proof (pow2_pos e').
    apply (Rmult_eq_reg_r (pow2 ey * pow2 e')); [|nra].
    rewrite E1, mult_IZR. ring. }
  assert (Hqk : q = k).
  { rewrite Hq, HM. apply Z.div_mul. lia. }
  apply binary_round_aux_exact; try assumption.
  - rewrite Hqk. unfold k. lia.
  - rewrite Hqk. now rewrite HF.
  - rewrite Hl, HM. apply Z.eqb_eq, Z.mod_mul. lia.
Qed.

Lemma F2R_mult m1 e1 m2 e2 :
  F2R (m1 * m2) (e1 + e2) = (F2R m1 e1 * F2R m2 e2)%R.
Proof. unfold F2R. rewrite mult_IZR, pow2_add. ring. Qed.

(** A product that is a number of the format is computed exactly. *)
Lemma SFmul_exact mf ef sx mx ex sy my ey :
  SpecFloat.bounded prec emax mx ex = true ->
  SpecFloat.bounded prec emax my ey = true ->
  SpecFloat.bounded prec emax mf ef = true ->
  (F2R (Zpos mx) ex * F2R (Zpos my) ey)%R = F2R (Zpos mf) ef ->
  SF64mul (S754_finite sx mx ex) (S754_finite sy my ey)
    = S754_finite (xorb sx sy) mf ef.
Proof.
  intros Hx Hy Hf Hv. unfold SF64mul, SFmul.
  destruct (bounded_props mx ex Hx) as (Cx & _ & Ex & Dx).
  destruct (bounded_props my ey Hy) as (Cy & _ & Ey & Dy).
  pose proof (Zdigits2_bounds (Zpos mx) (Pos2Z.is_pos mx)) as [Xlo _].
  pose proof (Zdigits2_bounds (Zpos my) (Pos2Z.is_pos my)) as [Ylo _].
  pose proof (Zdigits2_pos (Zpos mx) (Pos2Z.is_pos mx)) as Px.
  pose proof (Zdigits2_pos (Zpos my) (Pos2Z.is_pos my)) as Py.
  pose proof (Zdigits2_bounds (Zpos (mx * my)) (Pos2Z.is_pos _)) as [_ Phi].
  remember (Zdigits2 (Zpos (mx * my))) as dp eqn:Edp.
  remember (Zdigits2 (Zpos mx)) as dx eqn:Edx.
  remember (Zdigits2 (Zpos my)) as dy eqn:Edy.
  assert (Hd : dx + dy - 1 <= dp).
  { destruct (Z_lt_le_dec dp (dx + dy - 1)) as [Hc|Hc]; [|exact Hc].
    assert (2 ^ dp <= 2 ^ (dx - 1 + (dy - 1)))
      by (apply Z.pow_le_mono_r; lia).
    rewrite Z.pow_add_r in H by lia. rewrite Pos2Z.inj_mul in Phi.
    assert (0 < 2 ^ (dx - 1)) by (apply Z.pow_pos_nonneg; lia).
    assert (0 < 2 ^ (dy - 1)) by (apply Z.pow_pos_nonneg; lia).
    assert (2 ^ (dx - 1) * 2 ^ (dy - 1) <= Zpos mx * Zpos my)
      by (apply Z.mul_le_mono_nonneg; lia).
    exfalso. clear - Phi H H2. lia. }
  apply binary_round_aux_exact; try assumption; try reflexivity.
  - rewrite <- Edp. revert Cx Cy Ex Ey Dx Dy Hd.
    unfold fexp, SpecFloat.emin, prec, emax. lia.
  - rewrite Pos2Z.inj_mul, F2R_mult. exact Hv.
Qed.

(** The integers below [2^53] are Numbers. *)
Lemma Z2f_spec k :
  0 < k < 2 ^ 53 ->
  exists m e,
    Prim2SF (Z2f k) = S754_finite false m e /\
    SpecFloat.bounded prec emax m e = true /\
    F2R (Zpos m) e = IZR k.
Proof.
  intros [Hk Hlt]. destruct k as [|p|p]; try lia.
  pose proof (Zdigits2_bounds (Zpos p) Hk) as [Blo Bhi].
  pose proof (Zdigits2_pos (Zpos p) Hk) as Dp.
  assert (Hd : Zdigits2 (Zpos p) <= 53).
  { destruct (Z_lt_le_dec 53 (Zdigits2 (Zpos p))) as [Hc|Hc]; [|lia].
    assert (2 ^ 53 <= 2 ^ (Zdigits2 (Zpos p) - 1)) by (apply Z.pow_le_mono_r; lia).
    lia. }
  set (d := Zdigits2 (Zpos p)) in *.
  assert (P : 0 < 2 ^ (53 - d)) by (apply Z.pow_pos_nonneg; lia).
  set (m := Z.to_pos (Zpos p * 2 ^ (53 - d))).
  assert (Em : Zpos m = Zpos p * 2 ^ (53 - d)) by (unfold m; rewrite Z2Pos.id; lia).
  assert (Hb : SpecFloat.bounded prec emax m (d - 53) = true).
  { unfold SpecFloat.bounded, canonical_mantissa.
    apply andb_true_iff. split; [apply Z.eqb_eq|apply Z.leb_le].
    - change (Zpos (digits2_pos m)) with (Zdigits2 (Zpos m)).
      rewrite Em, Zdigits2_shiftl by lia. fold d.
      unfold fexp, SpecFloat.emin, prec, emax. lia.
    - unfold prec, emax. lia. }
  assert (Hv : F2R (Zpos m) (d - 53) = IZR (Zpos p)).
  { rewrite Em, F2R_shift by lia.
    replace (d - 53 + (53 - d)) with 0 by ring. unfold F2R. rewrite pow2_0. ring. }
  exists m, (d - 53). split; [|split; assumption].
  unfold Z2f, binary_normalize.
  rewrite (binary_round_exact m (d - 53) false p 0 Hb).
  - apply Prim2SF_SF2Prim. exact Hb.
  - rewrite Hv. unfold F2R. rewrite pow2_0. ring.
Qed.

Lemma div_Z2f a b :
  0 < a -> 0 < b -> a * b < 2 ^ 53 ->
  (Z2f (a * b) / Z2f b)%float = Z2f a.
Proof.
  intros Ha Hb Hab.
  destruct (Z2f_spec (a * b) ltac:(nia)) as (mx & ex & Ex & Bx & Vx).
  destruct (Z2f_spec b ltac:(nia)) as (my & ey & Ey & By & Vy).
  destruct (Z2f_spec a ltac:(nia)) as (mf & ef & Ef & Bf & Vf).
  apply Prim2SF_inj. rewrite div_spec, Ex, Ey, Ef.
  apply (SFdiv_exact mf ef false mx ex false my ey Bf).
  rewrite Vx, Vy, Vf, mult_IZR. reflexivity.
Qed.

Lemma mul_Z2f a b :
  0 < a -> 0 < b -> a * b < 2 ^ 53 ->
  (Z2f a * Z2f b)%float = Z2f (a * b).
Proof.
  intros Ha Hb Hab.
  destruct (Z2f_spec (a * b) ltac:(nia)) as (mf & ef & Ef & Bf & Vf).
  destruct (Z2f_spec b ltac:(nia)) as (my & ey & Ey & By & Vy).
  destruct (Z2f_spec a ltac:(nia)) as (mx & ex & Ex & Bx & Vx).
  apply Prim2SF_inj. rewrite mul_spec, Ex, Ey, Ef.
  apply (SFmul_exact mf ef false mx ex false my ey Bx By Bf).
  rewrite Vx, Vy, Vf, mult_IZR. reflexivity.
Qed.

(** [Math.round] leaves an integer as it is. *)
Lemma Math_round_Z2f k : 0 < k < 2 ^ 53 -> Math_round (Z2f k) = Z2f k.
Proof.
  intros Hk. destruct (Z2f_spec k Hk) as (m & e & E & B & V).
  unfold Math_round. rewrite E.
  destruct (Z.leb_spec 0 e) as [He|He]; [reflexivity|].
  assert (P : 0 < 2 ^ (- e)) by (apply Z.pow_pos_nonneg; lia).
  assert (Hm : Zpos m = k * 2 ^ (- e)).
  { assert (F2R (Zpos m) e = F2R (k * 2 ^ (- e)) e).
    { rewrite F2R_shift by lia. rewrite Z.add_opp_diag_r, V.
      unfold F2R. rewrite pow2_0. ring. }
    assert (Zpos m <= k * 2 ^ (- e)) by (apply (F2R_le_same _ _ e); lra).
    assert (k * 2 ^ (- e) <= Zpos m) by (apply (F2R_le_same _ _ e); lra).
    lia. }
  unfold cond_Zopp. rewrite Hm.
  replace (2 * (k * 2 ^ (- e)) + 2 ^ (- e)) with ((2 * k + 1) * 2 ^ (- e)) by ring.
  replace (1 - e) with (1 + - e) by ring. rewrite Z.pow_add_r by lia.
  change (2 ^ 1) with 2.
  rewrite Z.div_mul_cancel_r by lia.
  replace ((2 * k + 1) / 2) with k by (apply Z.div_unique with 1; lia).
  replace (k =? 0) with false by (symmetry; apply Z.eqb_neq; lia).
  reflexivity.
Qed.

(** Whole days are converted exactly. *)
Theorem whole_days_exact (d : Z) :
  0 <= d -> 86400 * d < 2 ^ 53 ->
  secondsToDaysForInput (VNumber (Z2f (86400 * d))) = Z2f d.
Proof.
  intros Hd Hb. unfold secondsToDaysForInput. cbn [ToNumber].
  destruct (Z.eq_dec d 0) as [->|Hnz]; [reflexivity|].
  change 60%float with (Z2f 60). change 24%float with (Z2f 24).
  change 10000%float with (Z2f 10000).
  replace (86400 * d) with (1440 * d * 60) by ring.
  rewrite div_Z2f by lia.
  replace (1440 * d) with (24 * d * 60) by ring.
  rewrite div_Z2f by lia.
  replace (24 * d) with (d * 24) by ring.
  rewrite div_Z2f by lia.
  rewrite mul_Z2f by lia.
  rewrite Math_round_Z2f by lia.
  apply div_Z2f; lia.
Qed.

(* ================================================================== *)
(** * Decimal notation read back *)
(* ================================================================== *)

Lemma of_uint_acc_value d : forall acc,
  Zpos (Pos.of_uint_acc d acc) = uint_value d (Zpos acc).
Proof.
  induction d; intros acc; cbn [Pos.of_uint_acc uint_value];
    try reflexivity; rewrite IHd; f_equal;
    rewrite ?Pos2Z.inj_add, Pos2Z.inj_mul; lia.
Qed.

Lemma of_uint_value d : Z.of_N (Pos.of_uint d) = uint_value d 0.
Proof.
  induction d; simpl; try reflexivity; try exact IHd;
    now rewrite of_uint_acc_value.
Qed.

Lemma to_uint_value p : uint_value (Pos.to_uint p) 0 = Zpos p.
Proof.
  rewrite <- of_uint_value, DecimalPos.Unsigned.of_to. reflexivity.
Qed.

Lemma scan_string_of_uint d : forall acc n,
  scan_digits (NilEmpty.string_of_uint d) acc n
    = (uint_value d acc, n + Z.of_nat (Decimal.nb_digits d), EmptyString).
Proof.
  induction d; intros acc n.
  1: simpl; repeat f_equal; lia.
  all: cbn [NilEmpty.string_of_uint scan_digits];
    match goal with
    | |- context [is_digit ?c] => change (is_digit c) with true
    end; cbv iota;
    match goal with
    | |- context [digit_val ?c] =>
        let v := eval vm_compute in (digit_val c) in
        change (digit_val c) with v
    end;
    rewrite IHd; cbn [uint_value Decimal.nb_digits]; rewrite Nat2Z.inj_succ;
    apply f_equal2; [apply f_equal2; [f_equal; lia | lia] | reflexivity].
Qed.

Lemma radix_digit_zero c : radix_digit 0 c = None.
Proof.
  unfold radix_digit.
  set (n := Z.of_nat (nat_of_ascii c)).
  assert (0 <= n) by (unfold n; lia).
  destruct ((48 <=? n) && (n <=? 57)) eqn:E1.
  - apply andb_true_iff in E1. destruct E1 as [E1 _]. apply Z.leb_le in E1.
    replace (n - 48 <? 0) with false by (symmetry; apply Z.ltb_ge; lia).
    reflexivity.
  - destruct ((97 <=? n) && (n <=? 102)) eqn:E2.
    + apply andb_true_iff in E2. destruct E2 as [E2 _]. apply Z.leb_le in E2.
      replace (n - 87 <? 0) with false by (symmetry; apply Z.ltb_ge; lia).
      reflexivity.
    + destruct ((65 <=? n) && (n <=? 70)) eqn:E3.
      * apply andb_true_iff in E3. destruct E3 as [E3 _]. apply Z.leb_le in E3.
        replace (n - 55 <? 0) with false by (symmetry; apply Z.ltb_ge; lia).
        reflexivity.
      * reflexivity.
Qed.

(** The decimal notation of digits is read back as the integer. *)
Lemma scan_unsigned_digits d :
  d <> Decimal.Nil ->
  scan_unsigned (NilEmpty.string_of_uint d)
    = Some (LitDecimal (uint_value d 0) 0, EmptyString).
Proof.
  intros Hd. unfold scan_unsigned.
  assert (Hp : prefix "Infinity" (NilEmpty.string_of_uint d) = false)
    by (destruct d; reflexivity).
  rewrite Hp, scan_string_of_uint.
  assert (Hn : (0 <? 0 + Z.of_nat (Decimal.nb_digits d)) = true).
  { apply Z.ltb_lt. destruct d; simpl Decimal.nb_digits; try contradiction; lia. }
  rewrite Hn. reflexivity.
Qed.

Lemma scan_non_decimal_digits d :
  scan_non_decimal (NilEmpty.string_of_uint d) = None.
Proof.
  destruct d; try reflexivity.
  simpl NilEmpty.string_of_uint. unfold scan_non_decimal.
  destruct d; try reflexivity;
    simpl NilEmpty.string_of_uint;
    destruct (NilEmpty.string_of_uint d) as [|c r]; try reflexivity;
    cbv beta iota zeta delta [Ascii.eqb Bool.eqb orb];
    now rewrite radix_digit_zero.
Qed.

Lemma StringToNumber_digits d :
  d <> Decimal.Nil ->
  StringToNumber (NilEmpty.string_of_uint d)
    = decimal_to_float false (uint_value d 0) 0 /\
  StringToNumber (String "-" (NilEmpty.string_of_uint d))
    = decimal_to_float true (uint_value d 0) 0 /\
  parseFloat_string (NilEmpty.string_of_uint d)
    = decimal_to_float false (uint_value d 0) 0 /\
  parseFloat_string (String "-" (NilEmpty.string_of_uint d))
    = decimal_to_float true (uint_value d 0) 0.
Proof.
  intros Hd.
  pose proof (scan_unsigned_digits d Hd) as Hu.
  pose proof (scan_non_decimal_digits d) as Hx.
  assert (Hs : skip_white (NilEmpty.string_of_uint d) = NilEmpty.string_of_uint d
               /\ all_white (NilEmpty.string_of_uint d) = false)
    by (destruct d; try contradiction; split; reflexivity).
  destruct Hs as [Hs Ha].
  assert (Hsig : scan_signed (NilEmpty.string_of_uint d)
                 = Some (decimal_to_float false (uint_value d 0) 0, EmptyString)).
  { unfold scan_signed.
    destruct d; try contradiction; simpl NilEmpty.string_of_uint in *;
      cbv iota beta; rewrite Hu; reflexivity. }
  assert (Hneg : scan_signed (String "-" (NilEmpty.string_of_uint d))
                 = Some (decimal_to_float true (uint_value d 0) 0, EmptyString)).
  { unfold scan_signed. cbv iota beta. rewrite Hu. reflexivity. }
  repeat split.
  - unfold StringToNumber. rewrite Hs, Ha, Hx, Hsig. reflexivity.
  - unfold StringToNumber. cbn [skip_white all_white].
    change (is_white "-") with false. cbv iota. cbn [andb].
    change (scan_non_decimal (String "-" (NilEmpty.string_of_uint d))) with (@None float).
    rewrite Hneg. reflexivity.
  - unfold parseFloat_string. rewrite Hs, Hsig. reflexivity.
  - unfold parseFloat_string. cbn [skip_white].
    change (is_white "-") with false. cbv iota. rewrite Hneg. reflexivity.
Qed.

Lemma decimal_to_float_integer neg v :
  0 < v -> decimal_to_float neg v 0 = Z2f (cond_Zopp neg v).
Proof.
  intros Hv. unfold decimal_to_float.
  replace (v =? 0) with false by (symmetry; apply Z.eqb_neq; lia).
  change (0 <=? 0) with true. cbv iota.
  change (10 ^ 0) with 1. rewrite Z.mul_1_r. reflexivity.
Qed.

(** A [BigNumber] used as a Number is the Number nearest to it, and
    [parseFloat] reads the same. *)
Theorem BigNumber_to_number (z : Z) :
  ToNumber (VBigNumber z) = Z2f z /\ parseFloat (VBigNumber z) = Z2f z.
Proof.
  cbn [ToNumber parseFloat]. unfold decimal.
  destruct z as [|p|p].
  - split; reflexivity.
  - cbn [Z.to_int NilZero.string_of_int].
    pose proof (DecimalPos.Unsigned.to_uint_nonnil p) as Hn.
    assert (Hz : NilZero.string_of_uint (Pos.to_uint p)
                 = NilEmpty.string_of_uint (Pos.to_uint p))
      by (destruct (Pos.to_uint p); try contradiction; reflexivity).
    rewrite Hz.
    destruct (StringToNumber_digits _ Hn) as (H1 & _ & H3 & _).
    rewrite H1, H3, to_uint_value, decimal_to_float_integer by lia.
    split; reflexivity.
  - cbn [Z.to_int NilZero.string_of_int].
    pose proof (DecimalPos.Unsigned.to_uint_nonnil p) as Hn.
    assert (Hz : NilZero.string_of_uint (Pos.to_uint p)
                 = NilEmpty.string_of_uint (Pos.to_uint p))
      by (destruct (Pos.to_uint p); try contradiction; reflexivity).
    rewrite Hz.
    destruct (StringToNumber_digits _ Hn) as (_ & H2 & _ & H4).
    rewrite H2, H4, to_uint_value, decimal_to_float_integer by lia.
    split; reflexivity.
Qed.

(* ================================================================== *)
(** * Properties of the listener helpers *)
(* ================================================================== *)

Section ListenerFacts.

Variable addresses : Z -> option network_addresses.

Lemma pool_together_of_some (networkID : Z) (n : network_addresses) :
  addresses networkID = Some n ->
  pool_together_of addresses networkID = ret (POOL_TOGETHER n).
Proof. intros H. unfold pool_together_of. now rewrite H. Qed.

Lemma pool_together_of_none (networkID : Z) :
  addresses networkID = None ->
  exists msg, pool_together_of addresses networkID = throw (TypeError msg).
Proof. intros H. unfold pool_together_of. rewrite H. now eexists. Qed.

Lemma bind_ret {A B} (a : A) (k : A -> M B) : bind (ret a) k = k a.
Proof. unfold bind, ret. destruct (k a). reflexivity. Qed.

(** Every registration of a helper carries the helper's own provider and
    callback, and the closure captured the pair it was registered for. *)
Lemma installed_by_helper (p : provider) (networkID : Z) (cb : callback)
    (run : M unit) (q : provider) (topic : string) (a : address)
    (h : closure) :
  listener_helper addresses p networkID cb run ->
  In (q, topic, a, h) (installed (fst run)) ->
  h = {| h_provider := q; h_topicString := topic; h_contractAddress := a;
         h_eventHandler := cb |}.
Proof.
  intros Hrun Hin.
  destruct Hrun as [ | | secondsLeft ];
    unfold listenAndHandleRNGCompleteEvent, listenAndHandleDepositEvent,
           listenAndHandleRNGStartEvent, pool_together_of in Hin;
    destruct (addresses networkID) as [n|]; simpl in Hin;
    try contradiction.
  - destruct Hin as [Heq|[]]. now inversion Heq.
  - destruct Hin as [Heq|[]]. now inversion Heq.
  - destruct (PrimFloat.leb secondsLeft 0); simpl in Hin.
    + destruct Hin as [Heq|[]]. now inversion Heq.
    + contradiction.
Qed.

End ListenerFacts.

(** A countdown above zero is not at or below zero. *)
Lemma ltb_zero_not_leb (x : float) :
  PrimFloat.ltb 0 x = true -> PrimFloat.leb x 0 = false.
Proof.
  rewrite FloatAxioms.ltb_spec, FloatAxioms.leb_spec.
  change (Prim2SF 0) with (S754_zero false).
  unfold SFltb, SFleb, SFcompare.
  destruct (Prim2SF x) as [s|s| |s m e]; try destruct s;
    congruence.
Qed.

Lemma filter_same_listener_gone (p : provider) (topic : string)
    (a : address) (r : registry) :
  listeners_of p topic a
    (List.filter (fun x => negb (same_listener p topic a x)) r) = [].
Proof.
  unfold listeners_of.
  induction r as [|x r IH]; simpl; [reflexivity|].
  destruct (same_listener p topic a x) eqn:E; simpl; [exact IH|].
  now rewrite E.
Qed.

(** C5: at or below zero [listenAndHandleRNGStartEvent] makes one
    [addEthersEventListener] call and no [removeEthersEventListener] call,
    for the topic ["RandomNumberRequested(uint32,address)"] on the
    prize-strategy address; above zero it makes one
    [removeEthersEventListener] call for that pair and registers nothing. *)
Theorem rng_start_gate (addresses : Z -> option network_addresses)
    (p : provider) (networkID : Z) (secondsLeft : float) (cb : callback)
    (n : network_addresses) :
  addresses networkID = Some n ->
  let run :=
    listenAndHandleRNGStartEvent addresses p networkID secondsLeft cb in
  let topic := "RandomNumberRequested(uint32,address)"%string in
  let a := PRIZE_STRATEGY_ADDRESS (POOL_TOGETHER n) in
  (PrimFloat.leb secondsLeft 0 = true ->
     run = ([ConsoleLog "start listener";
             AddEthersEventListener p topic a
               {| h_provider := p; h_topicString := topic;
                  h_contractAddress := a; h_eventHandler := cb |}],
            Normal tt)
     /\ count is_add (fst run) = 1%nat
     /\ count is_remove (fst run) = 0%nat) /\
  (PrimFloat.ltb 0 secondsLeft = true ->
     run = ([ConsoleLog "end listener";
             RemoveEthersEventListener p topic a], Normal tt)
     /\ count is_remove (fst run) = 1%nat
     /\ count is_add (fst run) = 0%nat).
Proof.
  intros Hn run topic a. subst run.
  unfold listenAndHandleRNGStartEvent.
  rewrite (pool_together_of_some addresses networkID n Hn), bind_ret.
  split; intros Hs.
  - rewrite Hs. repeat split.
  - rewrite (ltb_zero_not_leb _ Hs). repeat split.
Qed.

(** What the calls of [listenAndHandleRNGStartEvent] leave in the listener
    facility: one listener for the pair when none was there and the
    countdown is over, none while it is still running. *)
Lemma rng_start_registry (addresses : Z -> option network_addresses)
    (p : provider) (networkID : Z) (secondsLeft : float) (cb : callback)
    (n : network_addresses) (r : registry) :
  addresses networkID = Some n ->
  let run :=
    listenAndHandleRNGStartEvent addresses p networkID secondsLeft cb in
  let topic := "RandomNumberRequested(uint32,address)"%string in
  let a := PRIZE_STRATEGY_ADDRESS (POOL_TOGETHER n) in
  (PrimFloat.leb secondsLeft 0 = true ->
   listeners_of p topic a r = [] ->
   List.length (listeners_of p topic a (registry_after (fst run) r)) = 1%nat)
  /\
  (PrimFloat.ltb 0 secondsLeft = true ->
   listeners_of p topic a (registry_after (fst run) r) = []).
Proof.
  intros Hn run topic a. subst run.
  unfold listenAndHandleRNGStartEvent.
  rewrite (pool_together_of_some addresses networkID n Hn), bind_ret.
  split; intros Hs.
  - rewrite Hs. intros Hr. simpl. unfold listeners_of in *.
    rewrite List.filter_app, Hr. simpl.
    now rewrite Nat.eqb_refl, !String.eqb_refl.
  - rewrite (ltb_zero_not_leb _ Hs). simpl.
    apply filter_same_listener_gone.
Qed.

Lemma rng_start_gate_witness :
  count is_add
    (fst (listenAndHandleRNGStartEvent sample_addresses 0%nat 4 0%float
            sample_callback)) = 1%nat /\
  count is_remove
    (fst (listenAndHandleRNGStartEvent sample_addresses 0%nat 4 5%float
            sample_callback)) = 1%nat.
Proof.
  split.
  - apply (rng_start_gate sample_addresses 0%nat 4 0%float sample_callback
             _ eq_refl). reflexivity.
  - apply (rng_start_gate sample_addresses 0%nat 4 5%float sample_callback
             _ eq_refl). reflexivity.
Defined.

(** C6: a handler installed by one of the three helpers, when it fires with
    a callback that returns, performs in this order one
    [removeEthersEventListener] call for the pair it was registered for, one
    call of the callback, and one [setTimeout] of the page reload with 15000
    ms; nothing else. *)
Theorem handler_fires_in_order (addresses : Z -> option network_addresses)
    (p : provider) (networkID : Z) (cb : callback) (run : M unit)
    (q : provider) (topic : string) (a : address) (h : closure) :
  listener_helper addresses p networkID cb run ->
  In (q, topic, a, h) (installed (fst run)) ->
  cb_throws cb = None ->
  handlerFunc h =
    ([RemoveEthersEventListener q topic a;
      CallEventHandler cb;
      SetTimeout ReloadPage 15000], Normal tt)
  /\ count is_remove (fst (handlerFunc h)) = 1%nat
  /\ count is_call (fst (handlerFunc h)) = 1%nat
  /\ count is_timeout (fst (handlerFunc h)) = 1%nat
  /\ count is_add (fst (handlerFunc h)) = 0%nat.
Proof.
  intros Hrun Hin Hcb.
  rewrite (installed_by_helper addresses p networkID cb run q topic a h
             Hrun Hin).
  unfold handlerFunc, call; simpl. rewrite Hcb. repeat split.
Qed.

Lemma handler_fires_in_order_witness :
  handlerFunc
    {| h_provider := 0%nat;
       h_topicString := "Deposited(address,address,address,uint256,address)";
       h_contractAddress := "0x60bc094cb0c966e60ed3be0549e92f3bc572e9f8";
       h_eventHandler := sample_callback |} =
    ([RemoveEthersEventListener 0%nat
        "Deposited(address,address,address,uint256,address)"
        "0x60bc094cb0c966e60ed3be0549e92f3bc572e9f8";
      CallEventHandler sample_callback;
      SetTimeout ReloadPage 15000], Normal tt).
Proof.
  refine (proj1 (handler_fires_in_order sample_addresses 0%nat 4
                    sample_callback
                    (listenAndHandleDepositEvent sample_addresses 0%nat 4
                       sample_callback) _ _ _ _ _ _ _)).
  - constructor.
  - simpl. left. reflexivity.
  - reflexivity.
Defined.

(** C7: for a network id without an entry in the address table each of the
    three helpers throws a [TypeError] while resolving the contract address,
    before any listener is added or removed, and the error reaches the
    caller. *)
Theorem missing_network_throws (addresses : Z -> option network_addresses)
    (p : provider) (networkID : Z) (cb : callback) (run : M unit) :
  addresses networkID = None ->
  listener_helper addresses p networkID cb run ->
  exists msg, run = ([], Throw (TypeError msg)).
Proof.
  intros Hnone Hrun.
  destruct (pool_together_of_none addresses networkID Hnone) as [msg Hmsg].
  exists msg.
  destruct Hrun;
    unfold listenAndHandleRNGCompleteEvent, listenAndHandleDepositEvent,
           listenAndHandleRNGStartEvent;
    rewrite Hmsg; reflexivity.
Qed.

Lemma missing_network_throws_witness :
  exists msg,
    listenAndHandleRNGStartEvent sample_addresses 0%nat 1 0%float
      sample_callback = ([], Throw (TypeError msg)).
Proof.
  apply (missing_network_throws sample_addresses 0%nat 1 sample_callback).
  - reflexivity.
  - constructor.
Defined.

(** C10: in a handler installed by one of the three helpers the
    [removeEthersEventListener] call comes before the call of the callback;
    when the callback throws, the error leaves the handler, no page reload
    has been scheduled, and the handler's own calls have left no listener
    for the pair in the facility. *)
Theorem handler_deregisters_before_callback
    (addresses : Z -> option network_addresses)
    (p : provider) (networkID : Z) (cb : callback) (run : M unit)
    (q : provider) (topic : string) (a : address) (h : closure)
    (e : js_error) (r : registry) :
  listener_helper addresses p networkID cb run ->
  In (q, topic, a, h) (installed (fst run)) ->
  cb_throws cb = Some e ->
  handlerFunc h =
    ([RemoveEthersEventListener q topic a; CallEventHandler cb], Throw e)
  /\ count is_timeout (fst (handlerFunc h)) = 0%nat
  /\ listeners_of q topic a (registry_after (fst (handlerFunc h)) r) = [].
Proof.
  intros Hrun Hin Hcb.
  rewrite (installed_by_helper addresses p networkID cb run q topic a h
             Hrun Hin).
  unfold handlerFunc, call; simpl. rewrite Hcb; simpl.
  repeat split.
  apply filter_same_listener_gone.
Qed.

Lemma handler_deregisters_before_callback_witness :
  let h :=
    {| h_provider := 0%nat;
       h_topicString := "RandomNumberCompleted(uint32,uint256)";
       h_contractAddress := "0xeeb552c4d5e155e50ee3f7402ed379bf72e36f23";
       h_eventHandler := failing_callback |} in
  count is_timeout (fst (handlerFunc h)) = 0%nat.
Proof.
  intros h.
  apply (handler_deregisters_before_callback sample_addresses 0%nat 4
           failing_callback
           (listenAndHandleRNGCompleteEvent sample_addresses 0%nat 4
              failing_callback)
           0%nat "RandomNumberCompleted(uint32,uint256)"
           "0xeeb552c4d5e155e50ee3f7402ed379bf72e36f23" h
           (Thrown "dispatch failed")
           [(0%nat, "RandomNumberCompleted(uint32,uint256)"%string,
             "0xeeb552c4d5e155e50ee3f7402ed379bf72e36f23"%string, h)]).
  - constructor.
  - simpl. left. reflexivity.
  - reflexivity.
Defined.

(* ================================================================== *)
(** * Properties of the pure helpers *)
(* ================================================================== *)

(** C8: [poolTogetherUILinks] returns the same two URLs for every chain id,
    4 or not. *)
Theorem poolTogetherUILinks_constant (chainID : value) :
  poolTogetherUILinks chainID =
    ("https://community.pooltogether.com/pools/rinkeby/0x60bc094cb0c966e60ed3be0549e92f3bc572e9f8/home"%string,
     "https://community.pooltogether.com/pools/rinkeby/0x60bc094cb0c966e60ed3be0549e92f3bc572e9f8/manage#stats"%string)
  /\ poolTogetherUILinks chainID = poolTogetherUILinks (VNumber 4).
Proof.
  unfold poolTogetherUILinks.
  destruct (strict_eq_number chainID 4);
    destruct (strict_eq_number (VNumber 4) 4); split; reflexivity.
Qed.

(** C4: with a rate of zero the maturation is 0 days whatever the limit, and
    the second component is the percentage of the limit. *)
Theorem zero_rate_maturation (ticketCreditLimitMantissa : Z) :
  getCreditMaturationDaysAndLimitPercentage 0 ticketCreditLimitMantissa =
    (0%float,
     fractionToPercentage
       (VString (Ethers.formatEther ticketCreditLimitMantissa))).
Proof.
  unfold getCreditMaturationDaysAndLimitPercentage.
  change (Ethers.gt 0 0) with false. cbv iota.
  f_equal.
Qed.

Lemma no_chance_test (usersPoolBalance : value) :
  is_undefined usersPoolBalance
  || strict_eq_number usersPoolBalance 0
  || PrimFloat.eqb (parseFloat usersPoolBalance) 0 = true
  <-> no_chance usersPoolBalance.
Proof.
  unfold no_chance. rewrite !orb_true_iff. split.
  - intros [[H|H]|H].
    + left. destruct usersPoolBalance; (reflexivity || discriminate).
    + right; left. destruct usersPoolBalance; try discriminate. eauto.
    + right; right. exact H.
  - intros [H|[(x & H & Hx)|H]].
    + subst. left; left. reflexivity.
    + subst. left; right. exact Hx.
    + right. exact H.
Qed.

(** The marker is returned exactly when the guard of the source holds. *)
Lemma calculateOdds_guard (engine : pow_engine) (b : value) (t : float)
    (w : Z) :
  calculateOdds engine b t w = VString "ngmi"
  <-> is_undefined b || strict_eq_number b 0
      || PrimFloat.eqb (parseFloat b) 0 = true.
Proof.
  unfold calculateOdds.
  destruct (is_undefined b || strict_eq_number b 0
            || PrimFloat.eqb (parseFloat b) 0);
    split; (reflexivity || discriminate).
Qed.

(** An integer that is not zero is not converted to a zero. *)
Lemma Z2f_zero (z : Z) : PrimFloat.eqb (Z2f z) 0 = true <-> z = 0.
Proof.
  split; [|intros ->; reflexivity].
  destruct z as [|p|p]; [reflexivity| |]; intros H; exfalso; revert H;
    rewrite FloatAxioms.eqb_spec, Prim2SF_zero;
    unfold Z2f, binary_normalize;
    rewrite Prim2SF_SF2Prim by apply binary_round_valid.
  - destruct (binary_round_eq false p 0) as (mz & ez & E & V & _).
    rewrite E.
    destruct (binary_round_aux_lower 4503599627370496 (-52) false
                (Zpos mz) ez loc_Exact bounded_one (Pos2Z.is_pos mz))
      as [R|(m' & e' & R & _)]; try (rewrite R; discriminate).
    rewrite F2R_one, V. unfold F2R. rewrite pow2_0, Rmult_1_r.
    apply IZR_le. lia.
  - destruct (binary_round_eq true p 0) as (mz & ez & E & V & _).
    rewrite E.
    destruct (binary_round_aux_lower 4503599627370496 (-52) true
                (Zpos mz) ez loc_Exact bounded_one (Pos2Z.is_pos mz))
      as [R|(m' & e' & R & _)]; try (rewrite R; discriminate).
    rewrite F2R_one, V. unfold F2R. rewrite pow2_0, Rmult_1_r.
    apply IZR_le. lia.
Qed.

(** C2: [calculateOdds] returns the marker ["ngmi"] exactly when the balance
    is [undefined], the number 0, or a value that parses to the number 0.
    These are [undefined], the two zeros among the Numbers, the strings that
    [parseFloat] reads as a zero, as ["0"], and the [BigNumber] 0; [null]
    and the booleans are none.  For every other balance it returns the
    number [1 / (1 - Math.pow((total - balance) / total, winners))] on every
    engine, where the power of a finite share that is not zero, for a
    number of winners that is not zero, is the engine's own. *)
Theorem calculateOdds_marker (engine : pow_engine)
    (totalPoolDeposits : float) (winners : Z) :
  let odds b := calculateOdds engine b totalPoolDeposits winners in
  let share b :=
    ((totalPoolDeposits - ToNumber b) / totalPoolDeposits)%float in
  (forall b, odds b = VString "ngmi" <-> no_chance b)
  /\ (forall b, ~ no_chance b ->
        odds b = VNumber (1 / (1 - Math_pow engine (share b) winners))%float)
  /\ (forall b s m e, ~ no_chance b -> winners <> 0 ->
        Prim2SF (share b) = S754_finite s m e ->
        odds b = VNumber (1 / (1 - engine (share b) winners))%float)
  /\ odds VUndefined = VString "ngmi"
  /\ (forall x, odds (VNumber x) = VString "ngmi"
                <-> PrimFloat.eqb x 0 = true)
  /\ (forall s, odds (VString s) = VString "ngmi"
                <-> PrimFloat.eqb (parseFloat_string s) 0 = true)
  /\ odds (VString "0") = VString "ngmi"
  /\ (forall z, odds (VBigNumber z) = VString "ngmi" <-> z = 0)
  /\ odds VNull <> VString "ngmi"
  /\ (forall c, odds (VBool c) <> VString "ngmi").
Proof.
  intros odds share. subst odds share. cbv beta.
  assert (F : forall b, ~ no_chance b ->
            calculateOdds engine b totalPoolDeposits winners =
            VNumber (1 / (1 - Math_pow engine
                       ((totalPoolDeposits - ToNumber b) / totalPoolDeposits)
                       winners))%float).
  { intros b Hn. unfold calculateOdds.
    destruct (is_undefined b || strict_eq_number b 0
              || PrimFloat.eqb (parseFloat b) 0) eqn:G; [|reflexivity].
    exfalso. apply Hn, no_chance_test. exact G. }
  repeat apply conj.
  - intros b. rewrite calculateOdds_guard. apply no_chance_test.
  - exact F.
  - intros b s m e Hn Hw Hs. rewrite (F b Hn). unfold Math_pow.
    replace (winners =? 0) with false
      by (symmetry; apply Z.eqb_neq; exact Hw).
    rewrite Hs. reflexivity.
  - reflexivity.
  - intros x. rewrite calculateOdds_guard.
    cbn [is_undefined strict_eq_number parseFloat orb]. cbv delta [zero].
    destruct (PrimFloat.eqb x 0) eqn:E; [split; reflexivity|].
    cbn [orb]. rewrite E. split; intros H; exact H.
  - intros s. rewrite calculateOdds_guard. reflexivity.
  - reflexivity.
  - intros z. rewrite calculateOdds_guard.
    cbn [is_undefined strict_eq_number orb].
    rewrite (proj2 (BigNumber_to_number z)). apply Z2f_zero.
  - intros H. apply calculateOdds_guard in H. discriminate.
  - intros c H. apply calculateOdds_guard in H. discriminate.
Qed.

Lemma calculateOdds_marker_witness :
  calculateOdds correctly_rounded_pow (VString "12.5") 100 1 = VNumber 8
  /\ calculateOdds correctly_rounded_pow (VBigNumber 0) 100 1
     = VString "ngmi"
  /\ (forall engine : pow_engine,
        engine 0.9%float 4 = 0.6561000000000001%float ->
        calculateOdds engine (VNumber 1) 10 4
        = VNumber 2.907822041291074).
Proof.
  pose proof (calculateOdds_marker correctly_rounded_pow 100 1) as H.
  cbv zeta in H.
  destruct H as (_ & _ & H & _ & _ & _ & _ & Hz & _).
  repeat apply conj.
  - rewrite (H (VString "12.5") false 7881299347898368%positive (-53)).
    + reflexivity.
    + unfold no_chance. intros [E|[(x & E & _)|E]]; discriminate.
    + lia.
    + reflexivity.
  - apply Hz. reflexivity.
  - intros engine He.
    pose proof (calculateOdds_marker engine 10 4) as G. cbv zeta in G.
    destruct G as (_ & _ & G & _).
    rewrite (G (VNumber 1) false 8106479329266893%positive (-53)).
    + change ((10 - ToNumber (VNumber 1)) / 10)%float with 0.9%float.
      rewrite He. reflexivity.
    + unfold no_chance. intros [E|[(x & E & Ex)|E]]; try discriminate.
      revert Ex. now inversion E.
    + lia.
    + reflexivity.
Defined.

(** Two Numbers with different binary64 representations are different. *)
Lemma float_neq (x y : float) : Prim2SF x <> Prim2SF y -> x <> y.
Proof. intros H E. apply H. now rewrite E. Qed.


(** The condition on the engine cannot be dropped: were the power of one half
    the Number just above 1, the odds of half the pool would be negative. *)
Remark odds_depend_on_engine (engine : pow_engine) :
  engine ((2 - 1) / 2)%float 1 = 0x1.0000000000001p+0%float ->
  calculateOdds engine (VNumber 1) 2 1 = VNumber (-4503599627370496)
  /\ PrimFloat.leb 1 (-4503599627370496) = false.
Proof.
  intros H. split; [|reflexivity]. unfold calculateOdds.
  cbn [is_undefined strict_eq_number parseFloat ToNumber orb].
  change (Math_pow engine ((2 - 1) / 2) 1)
    with (engine ((2 - 1) / 2)%float 1).
  rewrite H. reflexivity.
Qed.



(** C9, as stated, fails: a total of [+Infinity] is above zero, and the odds
    of the whole of it are [NaN], on every engine. *)
Lemma whole_pool_counterexample :
  PrimFloat.ltb 0 infinity = true /\
  (forall engine : pow_engine,
     calculateOdds engine (VNumber infinity) infinity 1 = VNumber nan) /\
  (forall engine : pow_engine,
     calculateOdds engine (VNumber infinity) infinity 1 <> VNumber 1).
Proof.
  repeat split.
  intros engine H.
  apply (f_equal (fun v => match v with
                           | VNumber x => Prim2SF x
                           | _ => S754_nan
                           end)) in H.
  vm_compute in H. discriminate.
Qed.

(** C9, amended: for a finite total above zero and at least one winner, the
    odds of a balance that is the whole total are exactly 1, on every
    engine. *)
Theorem whole_pool_odds (engine : pow_engine) (t : float) (w : Z) :
  PrimFloat.ltb 0 t = true -> PrimFloat.ltb t infinity = true -> 1 <= w ->
  calculateOdds engine (VNumber t) t w = VNumber 1.
Proof.
  intros H0 Ht Hw. unfold calculateOdds.
  cbn [is_undefined strict_eq_number parseFloat ToNumber orb].
  cbv delta [zero]. rewrite !(positive_not_zero t H0). cbn [orb].
  destruct (positive_finite t H0 Ht) as (m & e & Et).
  assert (Hsub : (t - t)%float = 0%float).
  { apply Prim2SF_inj. rewrite sub_spec, Et, Prim2SF_zero.
    unfold SF64sub, SFsub. now rewrite Z.sub_diag. }
  rewrite Hsub.
  assert (Hdiv : (0 / t)%float = 0%float).
  { apply Prim2SF_inj. rewrite div_spec, Et, Prim2SF_zero. reflexivity. }
  rewrite Hdiv.
  assert (Hpow : Math_pow engine 0 w = 0%float).
  { unfold Math_pow. rewrite Prim2SF_zero.
    replace (w =? 0) with false by (symmetry; apply Z.eqb_neq; lia).
    replace (0 <? w) with true by (symmetry; apply Z.ltb_lt; lia).
    reflexivity. }
  rewrite Hpow. reflexivity.
Qed.

Lemma whole_pool_odds_witness :
  calculateOdds correctly_rounded_pow (VNumber 250) 250 2 = VNumber 1.
Proof.
  apply (whole_pool_odds correctly_rounded_pow 250 2);
    [reflexivity|reflexivity|lia].
Defined.

(** C1, as stated, fails: 756 seconds are 87.5 ten-thousandths of a day;
    divided by 60, 60 and 24 in turn they come out just below, and round to
    87, where the single division by 86400 rounds to 88. *)
Lemma days_conversion_counterexample :
  fst (getCreditMaturationDaysAndLimitPercentage 1 756) = (87 / 10000)%float
  /\ claimed_days (Ethers.div 756 1) = (88 / 10000)%float
  /\ 2 * (Ethers.div 756 1 * 10000) = (2 * 87 + 1) * 86400
  /\ fst (getCreditMaturationDaysAndLimitPercentage 1 756)
       <> claimed_days (Ethers.div 756 1).
Proof.
  repeat split.
  apply float_neq. vm_compute. discriminate.
Qed.

(** The percentage is rounded from binary64 values as well: the limit
    1.005 * 10^18 is read as the Number just below 1.005, and its
    percentage is 100, where 100.5 would round to 101. *)
Lemma percentage_of_1_005 :
  Ethers.formatEther 1005000000000000000 = "1.005"%string /\
  snd (getCreditMaturationDaysAndLimitPercentage 1 1005000000000000000)
    = 100%float.
Proof. split; reflexivity. Qed.

(** C1, amended: with a rate above zero the result is the pair of
    [Math.round(((limit div rate) / 60 / 60 / 24) * 10000) / 10000], the
    seconds being read from their decimal notation and divided by 60, 60 and
    24 in turn, each quotient rounded to binary64, and
    [Math.round(formatEther(limit) * 100)]; 86400 seconds are exactly
    1 day. *)
Theorem credit_maturation_and_limit
    (ticketCreditRateMantissa ticketCreditLimitMantissa : Z) :
  0 < ticketCreditRateMantissa ->
  getCreditMaturationDaysAndLimitPercentage
    ticketCreditRateMantissa ticketCreditLimitMantissa =
    ((Math_round
        ((StringToNumber
            (Ethers.toString
               (Z.quot ticketCreditLimitMantissa ticketCreditRateMantissa))
          / 60 / 60 / 24) * 10000) / 10000)%float,
     Math_round
       (StringToNumber (Ethers.formatEther ticketCreditLimitMantissa)
        * 100)%float)
  /\ (Z.quot ticketCreditLimitMantissa ticketCreditRateMantissa = 86400 ->
      fst (getCreditMaturationDaysAndLimitPercentage
             ticketCreditRateMantissa ticketCreditLimitMantissa) = 1%float).
Proof.
  intros Hrate.
  unfold getCreditMaturationDaysAndLimitPercentage, Ethers.gt, Ethers.div.
  replace (0 <? ticketCreditRateMantissa) with true
    by (symmetry; apply Z.ltb_lt; exact Hrate).
  split; [reflexivity|].
  intros Hday. cbn [fst]. unfold secondsToDaysForInput. cbn [ToNumber].
  rewrite Hday. reflexivity.
Qed.

Lemma credit_maturation_and_limit_witness :
  fst (getCreditMaturationDaysAndLimitPercentage 1 86400) = 1%float.
Proof.
  apply (credit_maturation_and_limit 1 86400); [lia|reflexivity].
Defined.

(* ================================================================== *)
(** * Further properties of [calculateOdds] *)
(* ================================================================== *)

Lemma not_no_chance_guard b :
  ~ no_chance b ->
  is_undefined b || strict_eq_number b 0
  || PrimFloat.eqb (parseFloat b) 0 = false.
Proof.
  intros Hn. destruct (_ || _ || _) eqn:E; [|reflexivity].
  exfalso. apply Hn. now apply no_chance_test.
Qed.

Lemma calculateOdds_formula engine b t w :
  ~ no_chance b ->
  calculateOdds engine b t w =
    VNumber (1 / (1 - Math_pow engine ((t - ToNumber b) / t) w))%float.
Proof.
  intros Hn. unfold calculateOdds. now rewrite (not_no_chance_guard b Hn).
Qed.

(** X7: With no winner the odds are [+Infinity], whatever the balance and
    the total, on every engine. *)
Theorem no_winner_odds (engine : pow_engine) (b : value) (t : float) :
  ~ no_chance b -> calculateOdds engine b t 0 = VNumber infinity.
Proof.
  intros Hn. rewrite (calculateOdds_formula engine b t 0 Hn). reflexivity.
Qed.

Lemma no_winner_odds_witness :
  calculateOdds correctly_rounded_pow (VString "5") 100 0 = VNumber infinity.
Proof.
  apply (no_winner_odds correctly_rounded_pow (VString "5") 100).
  unfold no_chance. intros [H|[(x & H & _)|H]]; discriminate.
Defined.

Lemma Prim2SF_nan : Prim2SF nan = S754_nan.
Proof. reflexivity. Qed.

Lemma sub_nan_l x : (nan - x)%float = nan.
Proof.
  apply Prim2SF_inj. rewrite sub_spec, Prim2SF_nan. reflexivity.
Qed.

Lemma sub_nan_r x : (x - nan)%float = nan.
Proof.
  apply Prim2SF_inj. rewrite sub_spec, Prim2SF_nan.
  unfold SF64sub, SFsub. destruct (Prim2SF x); reflexivity.
Qed.

Lemma div_nan_l x : (nan / x)%float = nan.
Proof.
  apply Prim2SF_inj. rewrite div_spec, Prim2SF_nan. reflexivity.
Qed.

Lemma div_nan_r x : (x / nan)%float = nan.
Proof.
  apply Prim2SF_inj. rewrite div_spec, Prim2SF_nan.
  unfold SF64div, SFdiv. destruct (Prim2SF x); reflexivity.
Qed.

Lemma Math_pow_nan engine w : w <> 0 -> Math_pow engine nan w = nan.
Proof.
  intros Hw. unfold Math_pow.
  replace (w =? 0) with false by (symmetry; apply Z.eqb_neq; exact Hw).
  reflexivity.
Qed.

(** X9: A balance that is not a number, or a total that is not, gives odds
    that are [NaN], not the marker, on every engine. *)
Theorem nan_odds (engine : pow_engine) (b : value) (t : float) (w : Z) :
  ~ no_chance b -> w <> 0 ->
  ToNumber b = nan \/ t = nan ->
  calculateOdds engine b t w = VNumber nan.
Proof.
  intros Hn Hw Hnan. rewrite (calculateOdds_formula engine b t w Hn).
  assert (H : ((t - ToNumber b) / t)%float = nan).
  { destruct Hnan as [E|E]; rewrite E.
    - now rewrite sub_nan_r, div_nan_l.
    - now rewrite div_nan_r. }
  rewrite H, (Math_pow_nan engine w Hw). reflexivity.
Qed.

Lemma nan_odds_witness :
  calculateOdds correctly_rounded_pow (VString "12px") 100 1 = VNumber nan.
Proof.
  apply (nan_odds correctly_rounded_pow (VString "12px") 100 1).
  - unfold no_chance. intros [H|[(x & H & _)|H]]; discriminate.
  - lia.
  - left. reflexivity.
Defined.

(** ** A total of zero *)

Lemma eqb_zero_cases t :
  PrimFloat.eqb t 0 = true ->
  Prim2SF t = S754_zero false \/ Prim2SF t = S754_zero true.
Proof.
  rewrite FloatAxioms.eqb_spec, Prim2SF_zero. unfold SFeqb, SFcompare.
  destruct (Prim2SF t) as [[|]|[|]| |[|] m e]; try discriminate; auto.
Qed.

Lemma SF2Prim_eq x s : Prim2SF x = s -> x = SF2Prim s.
Proof. intros <-. symmetry. apply SF2Prim_Prim2SF. Qed.

(** The share of a total of zero that a positive balance leaves is an
    infinity. *)
Lemma zero_total_ratio b t :
  PrimFloat.ltb 0 b = true -> PrimFloat.eqb t 0 = true ->
  ((t - b) / t)%float = infinity \/ ((t - b) / t)%float = neg_infinity.
Proof.
  intros Hb Ht.
  assert (H : Prim2SF ((t - b) / t) = S754_infinity false
              \/ Prim2SF ((t - b) / t) = S754_infinity true).
  { rewrite div_spec, sub_spec.
    destruct (eqb_zero_cases t Ht) as [Et|Et]; rewrite Et;
    destruct (positive_cases b Hb) as [(m & e & Eb)|Eb]; rewrite Eb;
      simpl; auto. }
  destruct H as [H|H]; apply SF2Prim_eq in H; [left|right]; exact H.
Qed.

Lemma positive_balance_formula engine b t w :
  PrimFloat.ltb 0 b = true ->
  calculateOdds engine (VNumber b) t w =
    VNumber (1 / (1 - Math_pow engine ((t - b) / t) w))%float.
Proof.
  intros Hb. unfold calculateOdds.
  cbn [is_undefined strict_eq_number parseFloat ToNumber orb].
  cbv delta [zero]. rewrite !(positive_not_zero b Hb). reflexivity.
Qed.

(** X6: With a total of zero the division by zero is not an error and not
    [NaN]: for a positive balance and at least one winner the odds are a
    zero, on every engine. *)
Theorem zero_total_odds (engine : pow_engine) (b t : float) (w : Z) :
  PrimFloat.ltb 0 b = true -> PrimFloat.eqb t 0 = true -> 1 <= w ->
  exists odds,
    calculateOdds engine (VNumber b) t w = VNumber odds /\
    PrimFloat.eqb odds 0 = true.
Proof.
  intros Hb Ht Hw. rewrite (positive_balance_formula engine b t w Hb).
  eexists. split; [reflexivity|].
  unfold Math_pow.
  replace (w =? 0) with false by (symmetry; apply Z.eqb_neq; lia).
  replace (0 <? w) with true by (symmetry; apply Z.ltb_lt; lia).
  destruct (zero_total_ratio b t Hb Ht) as [E|E]; rewrite E.
  - reflexivity.
  - change (Prim2SF neg_infinity) with (S754_infinity true). cbv iota.
    destruct (Z.odd w); reflexivity.
Qed.

Lemma zero_total_odds_witness :
  exists odds,
    calculateOdds correctly_rounded_pow (VNumber 5) 0 2 = VNumber odds /\
    PrimFloat.eqb odds 0 = true.
Proof.
  apply (zero_total_odds correctly_rounded_pow 5 0 2);
    [reflexivity|reflexivity|lia].
Defined.

(** ** A balance that reads as zero without parsing as zero *)

(** The correctly rounded power of 1 is 1. *)
Lemma correctly_rounded_pow_one w :
  w <> 0 -> correctly_rounded_pow 1%float w = 1%float.
Proof.
  intros E. unfold correctly_rounded_pow.
  rewrite Prim2SF_one. cbn [andb].
  destruct (Z.ltb_spec 0 w) as [Hw|Hw].
  - destruct w as [|p|p]; try lia. cbn [Z.to_pos].
    rewrite (binary_round_exact 4503599627370496 (-52) false _ _ bounded_one).
    + reflexivity.
    + rewrite F2R_pow, !F2R_one. apply pow1.
  - destruct w as [|p|p]; try lia. cbn [Z.opp Z.to_pos].
    pose proof (SFdiv_exact 4503599627370496 (-52) false 1 (- (-52 * Zpos p))
                  false (Pos.pow 4503599627370496 p) 0 bounded_one) as H.
    rewrite SFdiv_finite in H. cbv zeta in H. simpl xorb in H.
    destruct (SFdiv_core_binary prec emax 1 (- (-52 * Z.pos p))
                (Z.pos (4503599627370496 ^ p)) 0) as [[q e'] l].
    cbn [fst snd] in H. rewrite H; [reflexivity|].
    rewrite F2R_one, Rmult_1_l.
    replace 0 with (0 * Zpos p) by ring. rewrite F2R_pow.
    replace (F2R 1 (- (-52 * Z.pos p))) with (pow2 (52 * Zpos p))
      by (unfold F2R; rewrite Rmult_1_l; f_equal; ring).
    assert (Hb : F2R (Zpos 4503599627370496) 0 = pow2 52).
    { change (Zpos 4503599627370496) with (2 ^ 52).
      unfold F2R. rewrite <- pow2_IZR, pow2_0 by lia. ring. }
    rewrite Hb. rewrite <- (positive_nat_Z p) at 1.
    generalize (Pos.to_nat p). intros k. induction k as [|k IH].
    + reflexivity.
    + rewrite Nat2Z.inj_succ, Z.mul_succ_r, pow2_add, IH. simpl. ring.
Qed.

(** [Math.pow] of 1, on an engine whose power of 1 is 1. *)
Lemma Math_pow_one engine w :
  (w <> 0 -> engine 1%float w = 1%float) ->
  Math_pow engine 1%float w = 1%float.
Proof.
  intros He. unfold Math_pow.
  destruct (Z.eqb_spec w 0) as [E|E]; [reflexivity|].
  rewrite Prim2SF_one. exact (He E).
Qed.

Lemma sub_zero_r t :
  PrimFloat.ltb 0 t = true -> (t - 0)%float = t.
Proof.
  intros Ht. apply Prim2SF_inj. rewrite sub_spec, Prim2SF_zero.
  destruct (positive_cases t Ht) as [(m & e & E)|E]; rewrite E; reflexivity.
Qed.

Lemma div_self t :
  PrimFloat.ltb 0 t = true -> PrimFloat.ltb t infinity = true ->
  (t / t)%float = 1%float.
Proof.
  intros H0 Hi. destruct (positive_finite t H0 Hi) as (m & e & E).
  apply Prim2SF_inj. rewrite div_spec, E, Prim2SF_one.
  apply (SFdiv_exact _ _ false m e false m e bounded_one).
  rewrite F2R_one. ring.
Qed.

(** X8: [null], [false] and blank strings are no zero for the guard, which
    parses, but are zero for the formula, which converts: for a finite
    positive total their odds are [+Infinity], not the marker, on every
    engine whose power of 1 is 1. *)
Theorem coerced_zero_odds (engine : pow_engine) (b : value) (t : float)
    (w : Z) :
  ~ no_chance b -> ToNumber b = 0%float ->
  PrimFloat.ltb 0 t = true -> PrimFloat.ltb t infinity = true ->
  (w <> 0 -> engine 1%float w = 1%float) ->
  calculateOdds engine b t w = VNumber infinity.
Proof.
  intros Hn Hz H0 Hi He. rewrite (calculateOdds_formula engine b t w Hn), Hz.
  rewrite (sub_zero_r t H0), (div_self t H0 Hi), (Math_pow_one engine w He).
  reflexivity.
Qed.

Lemma coerced_zero_odds_witness :
  calculateOdds correctly_rounded_pow VNull 100 3 = VNumber infinity
  /\ calculateOdds correctly_rounded_pow (VString "  ") 100 3
     = VNumber infinity.
Proof.
  split.
  - apply (coerced_zero_odds correctly_rounded_pow VNull 100 3);
      try reflexivity.
    unfold no_chance. intros [H|[(x & H & _)|H]]; discriminate.
  - apply (coerced_zero_odds correctly_rounded_pow (VString "  ") 100 3);
      try reflexivity.
    unfold no_chance. intros [H|[(x & H & _)|H]]; discriminate.
Defined.

(* ================================================================== *)
(** * Further properties of the credit helpers *)
(* ================================================================== *)

Lemma range_check_spec test n : forall s k,
  range_check test n s = true -> s <= k < s + Z.of_nat n -> test k = true.
Proof.
  induction n as [|n IH]; intros s k H Hk; [lia|].
  cbn [range_check] in H. apply andb_true_iff in H. destruct H as [H1 H2].
  destruct (Z.eq_dec k s) as [->|Hne]; [exact H1|].
  apply (IH (s + 1)); [exact H2|lia].
Qed.

(** X1: A [BigNumber] counts as the Number nearest to it, in the day
    conversion and as a balance, on every engine. *)
Theorem bignumber_as_number (engine : pow_engine) (z : Z) (t : float)
    (w : Z) :
  secondsToDaysForInput (VBigNumber z) = secondsToDaysForInput (VNumber (Z2f z))
  /\ calculateOdds engine (VBigNumber z) t w
     = calculateOdds engine (VNumber (Z2f z)) t w.
Proof.
  destruct (BigNumber_to_number z) as [H1 H2].
  split.
  - unfold secondsToDaysForInput. now rewrite H1.
  - unfold calculateOdds. rewrite H1, H2.
    cbn [is_undefined strict_eq_number parseFloat ToNumber orb].
    cbv delta [zero].
    destruct (PrimFloat.eqb (Z2f z) 0) eqn:E; [reflexivity|].
    cbn [orb]. rewrite E. reflexivity.
Qed.

(** X2: A maturation of a whole number of days is reported as that number. *)
Theorem credit_whole_days (rate limit d : Z) :
  0 < rate -> Z.quot limit rate = 86400 * d ->
  0 <= d -> 86400 * d < 2 ^ 53 ->
  fst (getCreditMaturationDaysAndLimitPercentage rate limit) = Z2f d.
Proof.
  intros Hr Hq Hd Hb.
  unfold getCreditMaturationDaysAndLimitPercentage, Ethers.gt, Ethers.div.
  replace (0 <? rate) with true by (symmetry; apply Z.ltb_lt; exact Hr).
  cbn [fst]. unfold secondsToDaysForInput.
  rewrite (proj1 (BigNumber_to_number _)), Hq.
  exact (whole_days_exact d Hd Hb).
Qed.

Lemma credit_whole_days_witness :
  fst (getCreditMaturationDaysAndLimitPercentage 115740740740 
         (115740740740 * 86400 * 14 + 7)) = Z2f 14.
Proof.
  apply (credit_whole_days _ _ 14); [lia|reflexivity|lia|reflexivity].
Defined.

(** X3: A limit of a whole number of percent, up to ten times the whole, is
    reported as that number. *)
Theorem credit_whole_percent (rate k : Z) :
  0 <= k <= 1000 ->
  snd (getCreditMaturationDaysAndLimitPercentage rate
         (k * 10000000000000000)) = Z2f k.
Proof.
  intros Hk.
  unfold getCreditMaturationDaysAndLimitPercentage. cbn [snd].
  assert (H : range_check
                (fun n => PrimFloat.Leibniz.eqb
                            (fractionToPercentage
                               (VString (Ethers.formatEther
                                           (n * 10000000000000000))))
                            (Z2f n))
                (Z.to_nat 1001) 0 = true) by (vm_compute; reflexivity).
  apply (range_check_spec _ _ _ k) in H; [|rewrite Z2Nat.id; lia].
  apply FloatAxioms.Leibniz.eqb_spec in H. exact H.
Qed.

Lemma credit_whole_percent_witness :
  snd (getCreditMaturationDaysAndLimitPercentage 1 (7 * 10000000000000000))
    = Z2f 7.
Proof. apply (credit_whole_percent 1 7). lia. Defined.

(** X4: Up to one day, a maturation is reported as 0 days exactly when it is
    under five seconds. *)
Theorem credit_short_maturation (rate limit : Z) :
  0 < rate -> 0 <= Z.quot limit rate <= 86400 ->
  (fst (getCreditMaturationDaysAndLimitPercentage rate limit) = 0%float
   <-> Z.quot limit rate <= 4).
Proof.
  intros Hr Hq.
  unfold getCreditMaturationDaysAndLimitPercentage, Ethers.gt, Ethers.div.
  replace (0 <? rate) with true by (symmetry; apply Z.ltb_lt; exact Hr).
  cbn [fst]. unfold secondsToDaysForInput at 1.
  rewrite (proj1 (BigNumber_to_number _)).
  change (fun x : float => (Math_round (x / 60 / 60 / 24 * 10000) / 10000)%float)
    with (fun x : float => secondsToDaysForInput (VNumber x)).
  change ((Math_round (Z2f (Z.quot limit rate) / 60 / 60 / 24 * 10000) / 10000)%float)
    with (secondsToDaysForInput (VNumber (Z2f (Z.quot limit rate)))).
  assert (H : range_check
                (fun s => Bool.eqb
                            (PrimFloat.Leibniz.eqb
                               (secondsToDaysForInput (VNumber (Z2f s))) 0)
                            (s <=? 4))
                (Z.to_nat 86401) 0 = true) by (vm_compute; reflexivity).
  apply (range_check_spec _ _ _ (Z.quot limit rate)) in H;
    [|rewrite Z2Nat.id; lia].
  apply Bool.eqb_prop in H.
  split; intros E.
  - apply Z.leb_le. rewrite <- H. now apply FloatAxioms.Leibniz.eqb_spec.
  - apply FloatAxioms.Leibniz.eqb_spec. rewrite H. now apply Z.leb_le.
Qed.

Lemma credit_short_maturation_witness :
  fst (getCreditMaturationDaysAndLimitPercentage 3 14) = 0%float.
Proof.
  apply (credit_short_maturation 3 14); [lia|split; vm_compute; discriminate|].
  vm_compute. discriminate.
Defined.

Lemma binary_round_aux_nonneg m e l :
  0 <= m -> SFnonneg (binary_round_aux prec emax false m e l) = true.
Proof.
  intros Hm. rewrite binary_round_aux_eq. cbv zeta.
  destruct (shr_fexp_spec m e l Hm) as (M1 & _ & _).
  set (s1 := shr_fexp prec emax m e l) in *.
  pose proof (round_nearest_even_bounds (shr_m (fst s1))
                (loc_of_shr_record (fst s1))) as [[R1 _] _].
  set (m1 := round_nearest_even (shr_m (fst s1)) (loc_of_shr_record (fst s1))) in *.
  assert (H1 : 0 <= shr_m (fst s1)).
  { rewrite M1. apply Z.div_pos; [lia|apply Z.pow_pos_nonneg; lia]. }
  destruct (shr_fexp_spec m1 (snd s1) loc_Exact ltac:(lia)) as (M2 & _ & _).
  assert (H2 : 0 <= shr_m (fst (shr_fexp prec emax m1 (snd s1) loc_Exact))).
  { rewrite M2. apply Z.div_pos; [lia|apply Z.pow_pos_nonneg; lia]. }
  destruct (shr_m (fst (shr_fexp prec emax m1 (snd s1) loc_Exact)));
    try reflexivity; [|lia].
  destruct (_ <=? _); reflexivity.
Qed.

Lemma SFdiv_nonneg x my ey :
  SFnonneg x = true ->
  SFnonneg (SF64div x (S754_finite false my ey)) = true.
Proof.
  destruct x as [[|]|[|]| |[|] mx ex]; try discriminate; intros _;
    try reflexivity.
  rewrite SFdiv_finite. cbv zeta. simpl xorb.
  apply binary_round_aux_nonneg.
  destruct (SFdiv_core_spec (Zpos mx) ex (Zpos my) ey
              (Pos2Z.is_pos mx) (Pos2Z.is_pos my)) as (_ & Hq & _).
  rewrite Hq. apply Z.div_pos; [|lia].
  apply Z.mul_nonneg_nonneg; [lia|]. apply Z.pow_nonneg. lia.
Qed.

Lemma SFmul_nonneg x my ey :
  SFnonneg x = true ->
  SFnonneg (SF64mul x (S754_finite false my ey)) = true.
Proof.
  destruct x as [[|]|[|]| |[|] mx ex]; try discriminate; intros _;
    try reflexivity.
  unfold SF64mul, SFmul. simpl xorb. apply binary_round_aux_nonneg. lia.
Qed.

Lemma Z2f_nonneg k : 0 <= k -> SFnonneg (Prim2SF (Z2f k)) = true.
Proof.
  intros Hk. unfold Z2f, binary_normalize. destruct k as [|p|p]; try lia.
  - reflexivity.
  - rewrite Prim2SF_SF2Prim by apply binary_round_valid.
    destruct (binary_round_eq false p 0) as (mz & ez & E & _ & _).
    rewrite E. apply binary_round_aux_nonneg. lia.
Qed.

Lemma Math_round_nonneg x :
  SFnonneg (Prim2SF x) = true -> SFnonneg (Prim2SF (Math_round x)) = true.
Proof.
  intros Hx. unfold Math_round.
  destruct (Prim2SF x) as [[|]|[|]| |[|] m e] eqn:E; try discriminate;
    try (rewrite E; reflexivity).
  destruct (0 <=? e); [now rewrite E|].
  unfold cond_Zopp.
  set (n := (2 * Z.pos m + 2 ^ (- e)) / 2 ^ (1 - e)).
  destruct (Z.eqb_spec n 0) as [E0|E0]; [reflexivity|].
  apply Z2f_nonneg. unfold n.
  destruct (Z_lt_le_dec (1 - e) 0) as [Hneg|Hpos].
  - rewrite (Z.pow_neg_r 2 (1 - e)) by lia. now rewrite Z.div_0_r.
  - apply Z.div_pos; [|apply Z.pow_pos_nonneg; lia].
    assert (0 <= 2 ^ (- e)) by (apply Z.pow_nonneg; lia). lia.
Qed.

Lemma SFnonneg_leb x :
  SFnonneg (Prim2SF x) = true -> PrimFloat.leb 0 x = true.
Proof.
  rewrite FloatAxioms.leb_spec. change (Prim2SF 0) with (S754_zero false).
  destruct (Prim2SF x) as [[|]|[|]| |[|] m e]; try discriminate; reflexivity.
Qed.

Lemma secondsToDaysForInput_nonneg x :
  SFnonneg (Prim2SF x) = true ->
  SFnonneg (Prim2SF (secondsToDaysForInput (VNumber x))) = true.
Proof.
  intros Hx. unfold secondsToDaysForInput. cbn [ToNumber].
  rewrite div_spec.
  change (Prim2SF 10000) with (S754_finite false 5497558138880000 (-39)).
  apply SFdiv_nonneg, Math_round_nonneg.
  rewrite mul_spec.
  change (Prim2SF 10000) with (S754_finite false 5497558138880000 (-39)).
  apply SFmul_nonneg.
  rewrite div_spec.
  change (Prim2SF 24) with (S754_finite false 6755399441055744 (-48)).
  apply SFdiv_nonneg.
  rewrite div_spec.
  change (Prim2SF 60) with (S754_finite false 8444249301319680 (-47)).
  apply SFdiv_nonneg.
  rewrite div_spec.
  change (Prim2SF 60) with (S754_finite false 8444249301319680 (-47)).
  apply SFdiv_nonneg. exact Hx.
Qed.

(** X5: The maturation of a limit that is not negative is a Number that is
    neither negative nor [NaN], whatever the rate. *)
Theorem credit_days_not_negative (rate limit : Z) :
  0 <= limit ->
  PrimFloat.leb 0
    (fst (getCreditMaturationDaysAndLimitPercentage rate limit)) = true.
Proof.
  intros Hl.
  unfold getCreditMaturationDaysAndLimitPercentage, Ethers.gt, Ethers.div.
  cbn [fst].
  destruct (Z.ltb_spec 0 rate) as [Hr|Hr]; [|reflexivity].
  apply SFnonneg_leb.
  unfold secondsToDaysForInput at 1.
  rewrite (proj1 (BigNumber_to_number _)).
  apply (secondsToDaysForInput_nonneg (Z2f (Z.quot limit rate))).
  apply Z2f_nonneg. apply Z.quot_pos; lia.
Qed.

Lemma credit_days_not_negative_witness :
  PrimFloat.leb 0
    (fst (getCreditMaturationDaysAndLimitPercentage 7 123456789)) = true.
Proof. apply (credit_days_not_negative 7 123456789). lia. Defined.

(* ================================================================== *)
(** * Further properties of the listener helpers *)
(* ================================================================== *)

Lemma registry_after_app t1 t2 r :
  registry_after (t1 ++ t2) r = registry_after t2 (registry_after t1 r).
Proof. unfold registry_after. apply List.fold_left_app. Qed.

Lemma bind_normal_trace {A B} (t : list effect) (a : A) (k : A -> M B) :
  fst (bind (t, Normal a) k) = t ++ fst (k a).
Proof. unfold bind. destruct (k a). reflexivity. Qed.

(** X11: Registering does nothing but register: a helper never calls the
    callback and never schedules a reload itself, it makes at most one call
    to the listener facility, and it completes normally exactly when the
    network id has an entry in the address table. *)
Theorem registration_is_quiet (addresses : Z -> option network_addresses)
    (p : provider) (networkID : Z) (cb : callback) (run : M unit) :
  listener_helper addresses p networkID cb run ->
  count is_call (fst run) = 0%nat
  /\ count is_timeout (fst run) = 0%nat
  /\ (count is_add (fst run) + count is_remove (fst run) <= 1)%nat
  /\ (snd run = Normal tt <-> addresses networkID <> None).
Proof.
  intros Hrun.
  destruct Hrun as [ | | secondsLeft ];
    unfold listenAndHandleRNGCompleteEvent, listenAndHandleDepositEvent,
           listenAndHandleRNGStartEvent, pool_together_of;
    destruct (addresses networkID) as [n|]; simpl;
    try destruct (PrimFloat.leb secondsLeft 0); simpl;
    repeat split; try (vm_compute; lia); try congruence; try discriminate.
Qed.

Lemma registration_is_quiet_witness :
  count is_call
    (fst (listenAndHandleDepositEvent sample_addresses 0%nat 4
            sample_callback)) = 0%nat.
Proof.
  apply (registration_is_quiet sample_addresses 0%nat 4 sample_callback).
  constructor.
Defined.

Lemma listeners_of_app p topic a r1 r2 :
  listeners_of p topic a (r1 ++ r2)
    = listeners_of p topic a r1 ++ listeners_of p topic a r2.
Proof. unfold listeners_of. apply List.filter_app. Qed.

(** X12: [listenAndHandleRNGStartEvent] does not look for a listener that is
    already there: called [k] times with the countdown over it leaves [k]
    more listeners for the pair, and one call with the countdown not over
    ([NaN] included) removes them all. *)
Theorem rng_start_accumulates (addresses : Z -> option network_addresses)
    (p : provider) (networkID : Z) (over running : float) (cb : callback)
    (n : network_addresses) (k : nat) (r : registry) :
  addresses networkID = Some n ->
  PrimFloat.leb over 0 = true -> PrimFloat.leb running 0 = false ->
  let topic := "RandomNumberRequested(uint32,address)"%string in
  let a := PRIZE_STRATEGY_ADDRESS (POOL_TOGETHER n) in
  let start := listenAndHandleRNGStartEvent addresses p networkID over cb in
  let stop := listenAndHandleRNGStartEvent addresses p networkID running cb in
  List.length
    (listeners_of p topic a (registry_after (fst (repeat_run k start)) r))
    = (List.length (listeners_of p topic a r) + k)%nat
  /\ listeners_of p topic a
       (registry_after (fst (repeat_run k start ;; stop)) r) = [].
Proof.
  intros Hn Hover Hrun topic a start stop.
  assert (Estart : start =
            ([ConsoleLog "start listener";
              AddEthersEventListener p topic a
                {| h_provider := p; h_topicString := topic;
                   h_contractAddress := a; h_eventHandler := cb |}],
             Normal tt)).
  { unfold start, listenAndHandleRNGStartEvent.
    rewrite (pool_together_of_some addresses networkID n Hn), bind_ret.
    rewrite Hover. reflexivity. }
  assert (Estop : stop =
            ([ConsoleLog "end listener";
              RemoveEthersEventListener p topic a], Normal tt)).
  { unfold stop, listenAndHandleRNGStartEvent.
    rewrite (pool_together_of_some addresses networkID n Hn), bind_ret.
    rewrite Hrun. reflexivity. }
  clearbody start stop. subst start stop.
  set (c := ([ConsoleLog "start listener";
              AddEthersEventListener p topic a
                {| h_provider := p; h_topicString := topic;
                   h_contractAddress := a; h_eventHandler := cb |}],
             Normal tt) : M unit).
  assert (Hnormal : forall j, snd (repeat_run j c) = Normal tt).
  { induction j as [|j IH]; [reflexivity|].
    cbn [repeat_run]. unfold c at 1. unfold bind.
    destruct (repeat_run j c) as [t o]. simpl in IH. now subst o. }
  split.
  - revert r. induction k as [|k IH]; intros r.
    + simpl. lia.
    + cbn [repeat_run]. unfold c at 1. rewrite bind_normal_trace.
      rewrite registry_after_app, IH. simpl registry_after.
      rewrite listeners_of_app, List.length_app. simpl.
      unfold topic at 2. rewrite Nat.eqb_refl, !String.eqb_refl. simpl. lia.
  - pose proof (Hnormal k) as Hk.
    destruct (repeat_run k c) as [t o] eqn:Ek. simpl in Hk. subst o.
    rewrite bind_normal_trace, registry_after_app. simpl.
    apply filter_same_listener_gone.
Qed.

Lemma rng_start_accumulates_witness :
  List.length
    (listeners_of 0%nat "RandomNumberRequested(uint32,address)"
       "0xeeb552c4d5e155e50ee3f7402ed379bf72e36f23"
       (registry_after
          (fst (repeat_run 3
                  (listenAndHandleRNGStartEvent sample_addresses 0%nat 4
                     0%float sample_callback))) [])) = 3%nat.
Proof.
  refine (proj1 (rng_start_accumulates sample_addresses 0%nat 4 0%float nan
                   sample_callback _ 3 [] eq_refl eq_refl eq_refl)).
Defined.
